(** * SmartLead lead deletion: a shallow embedding of
      [smartlead_consolidated_git.py] and the properties of its
      selection / backup / delete pipeline.

    The script talks to three things it does not control: the remote lead
    platform (through [requests]), the wall clock and the SMTP server.  They
    are gathered in a read-only [World] of oracles, indexed by the number of
    consultations made so far, so that the remote may answer two identical
    requests differently.  The mutable part (the files of the working
    directory and the two mutable attributes of [SmartLeadProcessor]) is the
    [State] threaded through a state-and-exception monad that also collects
    the observable events of a run (log lines, HTTP attempts, sleeps, file
    writes, SMTP sessions, the exit status).

    Abstractions made once and for all:
    - numbers of a CSV cell are integers ([Z]); pandas' int/float distinction
      and the formatting of numbers inside URLs are not modelled;
    - a point in time is an integer number of seconds; [strptime], [strftime]
      and time-zone conversion (which keeps the instant) are not modelled, a
      timestamp field holds the result of parsing it;
    - writing to the local file system is reliable: [open] for writing,
      [write], [os.remove] and [to_csv] do not raise (reading an attachment
      in [send_email] may);
    - the float column "Reply Rate %" of the report, read by no later stage,
      is left out. *)

From Stdlib Require Import ZArith Lia Permutation Sorted.
From stdpp Require Import base numbers strings list gmap.

Local Open Scope Z_scope.

(** ** Data model *)

(** A cell of a pandas frame. *)
Inductive cell : Type :=
  | CInt (z : Z)
  | CStr (s : string)
  | CNaN.

#[global] Instance cell_eq_dec : EqDecision cell.
Proof. solve_decision. Defined.

(** A row of a frame ([pandas.Series] indexed by column name). *)
Abbreviation Series := (gmap string cell).

Record DataFrame : Type := mkDataFrame {
  columns : list string;
  rows : list Series
}.

(** [pd.DataFrame()] *)
Definition empty_frame : DataFrame := mkDataFrame [] [].

(** [df.empty]: some axis has length zero. *)
Definition df_empty (df : DataFrame) : bool :=
  match rows df, columns df with
  | [], _ => true
  | _, [] => true
  | _, _ => false
  end.

(** [len(df)] *)
Definition df_len (df : DataFrame) : Z := Z.of_nat (length (rows df)).

(** [df[k] = v] with a scalar [v]. *)
Definition df_set_column (k : string) (v : cell) (df : DataFrame) : DataFrame :=
  mkDataFrame
    (if bool_decide (k ∈ columns df) then columns df else columns df ++ [k])
    (map (fun r : Series => <[k:=v]> r) (rows df)).

(** Union of the columns, in order of first appearance. *)
Fixpoint union_columns (seen : list string) (frames : list DataFrame) : list string :=
  match frames with
  | [] => seen
  | df :: rest =>
      union_columns
        (seen ++ filter (fun c => c ∉ seen) (remove_dups (columns df))) rest
  end.

(** A row re-indexed on [cols]: a column the row lacks is filled with NaN. *)
Definition fill_missing (cols : list string) (r : Series) : Series :=
  foldr (fun c (acc : Series) =>
           match acc !! c with
           | Some _ => acc
           | None => <[c:=CNaN]> acc
           end) r cols.

(** [pd.concat(frames, ignore_index=True)] *)
Definition pd_concat (frames : list DataFrame) : DataFrame :=
  let cols := union_columns [] frames in
  mkDataFrame cols (map (fill_missing cols) (concat (map rows frames))).

(** [pd.isna] on the result of [row.get(k)]: [None] and NaN are missing. *)
Definition pd_isna (v : option cell) : bool :=
  match v with
  | None => true
  | Some CNaN => true
  | Some _ => false
  end.

(** A campaign as returned by the platform.  [created_at] and [updated_at]
    hold the result of [datetime.strptime(campaign[...], fmt)]: [None] when
    the key is absent or its text does not parse. *)
Record Campaign : Type := mkCampaign {
  id : cell;
  name : string;
  status : string;
  client_id : option Z;
  created_at : option Z;
  updated_at : option Z
}.

(** A row of the campaigns analysis CSV. *)
Record ReportRow : Type := mkReportRow {
  rr_campaign_id : cell;
  rr_campaign_name : string;
  rr_status : string;
  rr_client_id : option Z;
  rr_created : Z;
  rr_updated : Z;
  rr_days_since_creation : Z;
  rr_included : bool;             (* "Yes" / "No" *)
  rr_total_leads : Z;
  rr_no_reply_leads : Z
}.

(** The report once read back by [pd.read_csv]: rows with their index label. *)
Abbreviation ReportFrame := (list (nat * ReportRow)).

Inductive Path : Type :=
  | LogFile (stamp : Z)            (* smartlead_deletion_{stamp}.log *)
  | CampaignsCsv (stamp : Z)       (* all_campaigns_analysis_{stamp}.csv *)
  | BackupCsv (stamp : Z)          (* leads_deletion_backup_{stamp}.csv *)
  | ExportCsv (campaign_id : cell) (* exports/leads_campaign_{id}.csv *)
  | OtherFile (p : string).

#[global] Instance Path_eq_dec : EqDecision Path.
Proof. solve_decision. Defined.

(** What a file holds.  The text of a leads CSV is kept as what
    [pd.read_csv] makes of it: [None] when [read_csv] raises. *)
Inductive File : Type :=
  | FLeads (parsed : option DataFrame)
  | FReport (written : list ReportRow)
  | FLog.

(** ** The outside world *)

Inductive Request : Type :=
  | GetCampaigns                             (* GET /campaigns *)
  | GetLeadsExport (campaign_id : cell)      (* GET /campaigns/{id}/leads-export *)
  | DeleteLead (campaign_id lead_id : cell). (* DELETE /campaigns/{id}/leads/{id} *)

Record Response : Type := mkResponse {
  status_code : Z;
  content_type_csv : bool;          (* 'text/csv' in Content-Type *)
  json : option (list Campaign);    (* response.json(), None when it raises *)
  content : option DataFrame        (* response.content as read_csv sees it *)
}.

(** One call of [requests.request]: it raises a [RequestException]
    (connection error, timeout) or yields a response. *)
Inductive Outcome : Type :=
  | Unreachable
  | Responded (r : Response).

Inductive Halt : Type :=
  | NoCampaignsRetrieved          (* "No campaigns retrieved" *)
  | NoCampaignsMatch              (* "No campaigns match filter criteria" *)
  | NoCampaignsSelected           (* "No campaigns selected for deletion" *)
  | NoLeadsForBackup.             (* "No leads found for backup" *)

Inductive Exn : Type :=
  | HaltError (h : Halt)          (* Exception(...) of run_full_process *)
  | KeyError (k : string)
  | ValueError
  | IndexError
  | FileNotFound (p : Path)
  | ParserError                   (* pd.read_csv *)
  | JSONDecodeError
  | EmailError                    (* a header or the content is refused *)
  | OSError
  | SSLError
  | SMTPException.

Inductive Subject : Type :=
  | DeletionComplete
  | DeletionFailed (e : Exn)
  | OtherSubject (s : string).

Inductive Body : Type :=
  | CompletionBody (stats : gmap string Z)
  | FailureBody (e : Exn)
  | OtherBody (text : string).

(** A header assignment [msg[name] = value] of [email.message]. *)
Inductive Header : Type :=
  | From (value : string)
  | To (value : string)
  | SubjectLine (value : Subject).

(** The remote platform, the clock, and what the script cannot decide of its
    mail: whether [email.message] takes a header or a content (it raises
    otherwise), whether an attachment can be opened and read, whether the
    TLS context can be made, whether the SMTP session goes through. *)
Record World : Type := mkWorld {
  remote : nat -> Request -> Outcome;
  clock : nat -> Z;                 (* datetime.now() / time.time() *)
  header_accepted : Header -> bool; (* msg[name] = value *)
  content_accepted : Body -> bool;  (* msg.set_content(body) *)
  readable : nat -> Path -> bool;   (* open(path, "rb") and f.read() *)
  ssl_context : nat -> bool;        (* ssl.create_default_context() *)
  smtp_accepts : nat -> bool        (* SMTP_SSL, login and send_message *)
}.

(** [response.raise_for_status()] raises for 4xx and 5xx. *)
Definition raises_for_status (r : Response) : bool :=
  (400 <=? status_code r) && (status_code r <? 600).

(** Truth value of a response object: [Response.__bool__] is [Response.ok]. *)
Definition response_ok (r : Response) : bool := negb (raises_for_status r).

(** ** Configuration *)

Record Config : Type := mkConfig {
  API_KEY : string;
  TARGET_LEADS : Z;
  DAYS_WITHOUT_ACTIVITY : Z;
  EXCLUDE_CLIENT_IDS : list Z;
  SENDER_EMAIL : string;
  APP_PASSWORD : string;
  RECIPIENT_EMAILS : string;
  MAX_RETRIES : nat;
  BACKOFF_FACTOR : Z
}.

(** The values of the script.  The two secrets are elided: only their being
    non-empty is ever looked at. *)
Definition script_config : Config :=
  mkConfig "elided" 20000 30 [1598] "sender@example.org" "elided"
    "recipient@example.org" 5 2.

(** ** Events, exceptions and state *)

Inductive Level : Type := INFO | WARNING | ERROR.

Inductive Msg : Type :=
  | MRequestError (attempt : nat) (r : Request)
  | MEmailSent
  | MEmailFailed
  | MAttachmentNotFound (p : Path)
  | MFetching
  | MRetrieved (n : nat)
  | MFetchFailed
  | MRemovedStale (campaign_id : cell)
  | MExported (campaign_id : cell)
  | MExportFailed (campaign_id : cell)
  | MAnalysis (total no_reply : Z)
  | MAnalysisError (p : Path)
  | MFiltering (n : nat)
  | MCampaignError (campaign_id : cell)
  | MReportCreated (p : Path)
  | MFiltered (n : nat)
  | MSelecting
  | MSelected (n : nat) (cumulative : Z)
  | MCreatingBackup
  | MProcessingCampaign (campaign_id : cell)
  | MBackupCreated (p : Path) (n : Z)
  | MNoLeadsForBackup
  | MNoLeadsToDelete
  | MStartDeletion (n : Z)
  | MMissingId (row : nat)
  | MProgress (processed total : Z)
  | MDeletionCompleted (success failed : Z)
  | MAlreadyDeleted (lead_id : cell)
  | MDeleteFailed (lead_id campaign_id : cell)
  | MCompletionEmailSent
  | MCompletionEmailFailed
  | MStep (n : nat)               (* "=== STEP n: ... ===" *)
  | MCompleted
  | MProcessFailed (e : Exn)
  | MStarted
  | MTarget.

Inductive Event : Type :=
  | Logged (l : Level) (m : Msg)
  | Http (r : Request)                      (* one attempt *)
  | Slept (ms : Z)                          (* time.sleep, in milliseconds *)
  | Wrote (p : Path) (f : File)
  | Removed (p : Path)
  | Smtp (s : Subject) (attached : list Path) (* an SMTP session is opened *)
  | Printed
  | Exited (code : Z).

(** The working directory: the latest binding of a path wins. *)
Abbreviation Files := (list (Path * File)).

Fixpoint read_file (fs : Files) (p : Path) : option File :=
  match fs with
  | [] => None
  | (q, f) :: rest => if decide (q = p) then Some f else read_file rest p
  end.

Definition remove_file (fs : Files) (p : Path) : Files :=
  filter (fun qf : Path * File => qf.1 ≠ p) fs.

Record State : Type := mkState {
  tick : nat;                               (* consultations of the world *)
  files : Files;
  execution_stats : gmap string Z;          (* self.execution_stats *)
  output_files : list Path                  (* self.output_files *)
}.

Inductive Result (A : Type) : Type :=
  | Ok (a : A)
  | Raise (e : Exn).
Arguments Ok {A} a.
Arguments Raise {A} e.

Record Out (A : Type) : Type := mkOut {
  value : Result A;
  final : State;
  trace : list Event
}.
Arguments mkOut {A} value final trace.
Arguments value {A} o.
Arguments final {A} o.
Arguments trace {A} o.

(** ** The monad *)

Definition M (A : Type) : Type := State -> Out A.

Definition ret {A} (a : A) : M A := fun s => mkOut (Ok a) s [].

(** The outcome [o] of what ran after the events [t]. *)
Definition prepend {A} (t : list Event) (o : Out A) : Out A :=
  mkOut (value o) (final o) (t ++ trace o).

Definition bind {A B} (m : M A) (k : A -> M B) : M B :=
  fun s =>
    let o := m s in
    match value o with
    | Ok a => prepend (trace o) (k a (final o))
    | Raise e => mkOut (Raise e) (final o) (trace o)
    end.

Definition raise {A} (e : Exn) : M A := fun s => mkOut (Raise e) s [].

(** [try: m  except Exception as e: h e] *)
Definition try_except {A} (m : M A) (h : Exn -> M A) : M A :=
  fun s =>
    let o := m s in
    match value o with
    | Ok a => o
    | Raise e => prepend (trace o) (h e (final o))
    end.

#[global] Instance M_ret : MRet M := @ret.
#[global] Instance M_bind : MBind M := fun A B k m => bind m k.

Definition emit (e : Event) : M unit := fun s => mkOut (Ok tt) s [e].
Definition get_state : M State := fun s => mkOut (Ok s) s [].
Definition modify (f : State -> State) : M unit := fun s => mkOut (Ok tt) (f s) [].

Definition log (l : Level) (m : Msg) : M unit := emit (Logged l m).
Definition sleep (ms : Z) : M unit := emit (Slept ms).

Definition set_tick (n : nat) (s : State) : State :=
  mkState n (files s) (execution_stats s) (output_files s).
Definition set_files (fs : Files) (s : State) : State :=
  mkState (tick s) fs (execution_stats s) (output_files s).
Definition set_stats (st : gmap string Z) (s : State) : State :=
  mkState (tick s) (files s) st (output_files s).
Definition set_output_files (l : list Path) (s : State) : State :=
  mkState (tick s) (files s) (execution_stats s) l.

(** [self.execution_stats[k]] *)
Definition stat (s : State) (k : string) : Z := default 0 (execution_stats s !! k).

(** [self.execution_stats[k] = v] *)
Definition set_stat (k : string) (v : Z) : M unit :=
  modify (fun s => set_stats (<[k:=v]> (execution_stats s)) s).

(** [self.execution_stats[k] += v] *)
Definition add_stat (k : string) (v : Z) : M unit :=
  modify (fun s => set_stats (<[k:=stat s k + v]> (execution_stats s)) s).

Definition write_file (p : Path) (f : File) : M unit :=
  modify (fun s => set_files ((p, f) :: files s) s);; emit (Wrote p f).

Definition delete_file (p : Path) : M unit :=
  modify (fun s => set_files (remove_file (files s) p) s);; emit (Removed p).

(** The path [p] names a file. *)
Definition present (s : State) (p : Path) : Prop := is_Some (read_file (files s) p).

(** [os.path.isfile(p)] *)
Definition isfile (p : Path) : M bool :=
  s ← get_state; mret (bool_decide (present s p)).

(** ** The script *)

Section Script.

Context (cfg : Config) (w : World).

(** [DataFrame.sort_values(by="No Reply Leads", ascending=False)].  The
    script does not pass [kind], so pandas uses its default sort, documented
    as not stable; the function is a parameter, and what is known of it is
    [sort_values_spec] below. *)
Context (sort_values : ReportFrame -> ReportFrame).

(** One call of [requests.request(method, url, ..., timeout=30)]. *)
Definition http_request (r : Request) : M Outcome :=
  s ← get_state;
  modify (set_tick (S (tick s)));;
  emit (Http r);;
  mret (remote w (tick s) r).

(** [datetime.now()], [time.time()] *)
Definition now : M Z :=
  s ← get_state;
  modify (set_tick (S (tick s)));;
  mret (clock w (tick s)).

(** The body of the retry loop of [send_request], over the attempt numbers
    still to run. *)
Fixpoint send_request_from (attempts : list nat) (r : Request) : M (option Response) :=
  match attempts with
  | [] => mret None
  | attempt :: later =>
      o ← http_request r;
      match o with
      | Responded resp =>
          if raises_for_status resp then
            log ERROR (MRequestError attempt r);;
            sleep (1000 * BACKOFF_FACTOR cfg ^ Z.of_nat attempt);;
            send_request_from later r
          else mret (Some resp)
      | Unreachable =>
          log ERROR (MRequestError attempt r);;
          sleep (1000 * BACKOFF_FACTOR cfg ^ Z.of_nat attempt);;
          send_request_from later r
      end
  end.

(** [for attempt in range(1, MAX_RETRIES + 1)] *)
Definition send_request (r : Request) : M (option Response) :=
  send_request_from (seq 1 (MAX_RETRIES cfg)) r.

(** *** E-mail *)

(** [str.strip()] of a string of one character is empty for these. *)
Definition is_space (a : Ascii.ascii) : bool :=
  let n := Ascii.nat_of_ascii a in
  ((9 <=? n) && (n <=? 13) || (28 <=? n) && (n <=? 32))%nat.

(** [", ".join([r.strip() for r in RECIPIENT_EMAILS if r.strip()])]:
    [RECIPIENT_EMAILS] is a string, so [r] runs over its characters. *)
Definition recipients_header (recipient_emails : string) : string :=
  String.concat ", "
    (map (fun a => String a EmptyString)
       (List.filter (fun a => negb (is_space a)) (String.list_ascii_of_string recipient_emails))).

(** [msg[name] = value] *)
Definition set_header (h : Header) : M unit :=
  if header_accepted w h then mret tt else raise EmailError.

(** [msg.set_content(body)] *)
Definition set_content (body : Body) : M unit :=
  if content_accepted w body then mret tt else raise EmailError.

(** [with open(file_path, "rb") as f: f.read()] *)
Definition read_attachment (file_path : Path) : M unit :=
  s ← get_state;
  modify (set_tick (S (tick s)));;
  if readable w (tick s) file_path then mret tt else raise OSError.

(** The loop over [attachments]: the paths that exist are read and
    attached. *)
Fixpoint attach_files (attachments : list Path) : M (list Path) :=
  match attachments with
  | [] => mret []
  | file_path :: rest =>
      found ← isfile file_path;
      if (found : bool) then
        read_attachment file_path;;
        attached ← attach_files rest;
        mret (file_path :: attached)
      else
        log WARNING (MAttachmentNotFound file_path);;
        attach_files rest
  end.

(** [ssl.create_default_context()] *)
Definition create_default_context : M unit :=
  s ← get_state;
  modify (set_tick (S (tick s)));;
  if ssl_context w (tick s) then mret tt else raise SSLError.

(** [with smtplib.SMTP_SSL(...) as server: login; send_message] *)
Definition smtp_send (subject : Subject) (attached : list Path) : M unit :=
  s ← get_state;
  modify (set_tick (S (tick s)));;
  emit (Smtp subject attached);;
  if smtp_accepts w (tick s) then mret tt else raise SMTPException.

Definition send_email (subject : Subject) (body : Body) (attachments : list Path) : M bool :=
  try_except
    (set_header (From (SENDER_EMAIL cfg));;
     set_header (To (recipients_header (RECIPIENT_EMAILS cfg)));;
     set_header (SubjectLine subject);;
     set_content body;;
     attached ← attach_files attachments;
     create_default_context;;
     smtp_send subject attached;;
     log INFO MEmailSent;;
     mret true)
    (fun e => log ERROR MEmailFailed;; mret false).

(** *** Campaigns and leads *)

Definition fetch_all_campaigns : M (list Campaign) :=
  log INFO MFetching;;
  response ← send_request GetCampaigns;
  match response with
  | Some resp =>
      if response_ok resp then
        match json resp with
        | Some campaigns =>
            log INFO (MRetrieved (length campaigns));;
            mret campaigns
        | None => raise JSONDecodeError
        end
      else
        log ERROR MFetchFailed;; mret []
  | None => log ERROR MFetchFailed;; mret []
  end.

Definition export_leads_csv (campaign_id : cell) : M (option Path) :=
  let csv_filename := ExportCsv campaign_id in
  stale ← isfile csv_filename;
  (if (stale : bool) then
     delete_file csv_filename;; log INFO (MRemovedStale campaign_id)
   else mret tt);;
  response ← send_request (GetLeadsExport campaign_id);
  match response with
  | Some resp =>
      if response_ok resp && (status_code resp =? 200) && content_type_csv resp then
        write_file csv_filename (FLeads (content resp));;
        log INFO (MExported campaign_id);;
        mret (Some csv_filename)
      else
        log ERROR (MExportFailed campaign_id);; mret None
  | None => log ERROR (MExportFailed campaign_id);; mret None
  end.

(** [pd.read_csv] on a leads file. *)
Definition read_leads_csv (p : Path) : M DataFrame :=
  s ← get_state;
  match read_file (files s) p with
  | Some (FLeads (Some df)) => mret df
  | Some _ => raise ParserError
  | None => raise (FileNotFound p)
  end.

(** [df['reply_count'] == 0] on one row. *)
Definition reply_count_is_zero (r : Series) : bool :=
  bool_decide (r !! "reply_count" = Some (CInt 0)).

(** [df[df['reply_count'] == 0]] *)
Definition no_reply_rows (df : DataFrame) : M DataFrame :=
  if bool_decide ("reply_count" ∈ columns df) then
    mret (mkDataFrame (columns df) (filter (fun r => reply_count_is_zero r) (rows df)))
  else raise (KeyError "reply_count").

Definition analyze_campaign_leads (csv_file : Path) : M (DataFrame * Z * Z) :=
  try_except
    (df ← read_leads_csv csv_file;
     let total_leads := df_len df in
     no_reply_leads ← no_reply_rows df;
     let no_reply_count := df_len no_reply_leads in
     log INFO (MAnalysis total_leads no_reply_count);;
     mret (no_reply_leads, total_leads, no_reply_count))
    (fun e => log ERROR (MAnalysisError csv_file);; mret (empty_frame, 0, 0)).

(** *** SmartLeadProcessor *)

(** [include_campaign] of [filter_and_analyze_campaigns], on the parsed
    creation time. *)
Definition include_campaign (cutoff_date : Z) (campaign : Campaign) (created : Z) : bool :=
  match client_id campaign with
  | Some c => bool_decide (c ∉ EXCLUDE_CLIENT_IDS cfg)
  | None => true
  end
  && (bool_decide (status campaign = "PAUSED") || bool_decide (status campaign = "COMPLETED"))
  && (created <=? cutoff_date).

(** [datetime.strptime(campaign[key], fmt)] *)
Definition strptime (key : string) (field : option Z) : M Z :=
  match field with
  | Some t => mret t
  | None => raise (KeyError key)
  end.

(** [writer.writerow(...)] on the open report. *)
Definition writerow (campaigns_csv : Path) (row : ReportRow) : M unit :=
  s ← get_state;
  match read_file (files s) campaigns_csv with
  | Some (FReport written) => write_file campaigns_csv (FReport (written ++ [row]))
  | _ => write_file campaigns_csv (FReport [row])
  end.

(** The block under [if include_campaign:], but for the append: the lead
    counts of the row, zero for a campaign that is not included or whose
    export fails. *)
Definition lead_counts (include : bool) (campaign : Campaign) : M (Z * Z) :=
  if include then
    leads_file ← export_leads_csv (id campaign);
    match leads_file with
    | Some f =>
        '(_, total_leads, no_reply_leads) ← analyze_campaign_leads f;
        mret (total_leads, no_reply_leads)
    | None => mret (0, 0)
    end
  else mret (0, 0).

(** One turn of the loop over [campaigns]; the result is
    [filtered_campaigns] after the turn.  Nothing raises once the campaign
    has been appended ([export_leads_csv] and [analyze_campaign_leads] catch
    their own errors), so the handler sees the list as it was before. *)
Definition filter_one (campaigns_csv : Path) (cutoff_date : Z)
    (filtered_campaigns : list Campaign) (campaign : Campaign) : M (list Campaign) :=
  try_except
    (created ← strptime "created_at" (created_at campaign);
     updated ← strptime "updated_at" (updated_at campaign);
     today ← now;
     let days_since_creation := (today - created) `div` 86400 in
     let include := include_campaign cutoff_date campaign created in
     counts ← lead_counts include campaign;
     writerow campaigns_csv
       (mkReportRow (id campaign) (name campaign) (status campaign) (client_id campaign)
          created updated days_since_creation include counts.1 counts.2);;
     mret (if include then filtered_campaigns ++ [campaign] else filtered_campaigns))
    (fun e => log ERROR (MCampaignError (id campaign));; mret filtered_campaigns).

Fixpoint filter_loop (campaigns_csv : Path) (cutoff_date : Z)
    (filtered_campaigns : list Campaign) (campaigns : list Campaign) : M (list Campaign) :=
  match campaigns with
  | [] => mret filtered_campaigns
  | campaign :: rest =>
      filtered ← filter_one campaigns_csv cutoff_date filtered_campaigns campaign;
      filter_loop campaigns_csv cutoff_date filtered rest
  end.

Definition filter_and_analyze_campaigns (campaigns : list Campaign) : M (list Campaign) :=
  log INFO (MFiltering (length campaigns));;
  today ← now;
  let cutoff_date := today - DAYS_WITHOUT_ACTIVITY cfg * 86400 in
  timestamp ← now;
  let campaigns_csv := CampaignsCsv timestamp in
  modify (fun s => set_output_files (output_files s ++ [campaigns_csv]) s);;
  write_file campaigns_csv (FReport []);;
  filtered_campaigns ← filter_loop campaigns_csv cutoff_date [] campaigns;
  set_stat "campaigns_fetched" (Z.of_nat (length campaigns));;
  set_stat "campaigns_filtered" (Z.of_nat (length filtered_campaigns));;
  log INFO (MReportCreated campaigns_csv);;
  log INFO (MFiltered (length filtered_campaigns));;
  mret filtered_campaigns.

(** [pd.read_csv] on the campaigns analysis CSV: the rows get the labels
    0, 1, 2, ... *)
Definition read_report_csv (p : Path) : M ReportFrame :=
  s ← get_state;
  match read_file (files s) p with
  | Some (FReport written) => mret (zip (seq 0 (length written)) written)
  | Some _ => raise ParserError
  | None => raise (FileNotFound p)
  end.

(** The loop of [select_campaigns_for_deletion] over the sorted rows, with
    its [continue] and its [break]. *)
Fixpoint select_loop (campaigns_sorted : ReportFrame)
    (selected_indices : list nat) (cumulative_leads : Z) : list nat * Z :=
  match campaigns_sorted with
  | [] => (selected_indices, cumulative_leads)
  | (idx, row) :: rest =>
      let no_reply_count := rr_no_reply_leads row in
      if no_reply_count <=? 0 then
        select_loop rest selected_indices cumulative_leads
      else
        let selected_indices := selected_indices ++ [idx] in
        let cumulative_leads := cumulative_leads + no_reply_count in
        if cumulative_leads >=? TARGET_LEADS cfg then
          (selected_indices, cumulative_leads)
        else select_loop rest selected_indices cumulative_leads
  end.

(** The row of label [idx]. *)
Fixpoint loc_row (df : ReportFrame) (idx : nat) : option (nat * ReportRow) :=
  match df with
  | [] => None
  | (i, row) :: rest => if decide (i = idx) then Some (i, row) else loc_row rest idx
  end.

(** [df.loc[labels]]: the rows of these labels, in the order of the labels;
    a label that is absent raises. *)
Fixpoint loc (df : ReportFrame) (labels : list nat) : M ReportFrame :=
  match labels with
  | [] => mret []
  | idx :: rest =>
      match loc_row df idx with
      | Some r => rs ← loc df rest; mret (r :: rs)
      | None => raise (KeyError "label")
      end
  end.

Definition select_campaigns_for_deletion (filtered_campaigns : list Campaign) : M ReportFrame :=
  log INFO MSelecting;;
  s ← get_state;
  match last (output_files s) with
  | None => raise IndexError
  | Some latest =>
      campaigns_df ← read_report_csv latest;
      let campaigns_df := filter (fun r : nat * ReportRow => rr_included r.2 = true) campaigns_df in
      let campaigns_sorted := sort_values campaigns_df in
      let '(selected_indices, cumulative_leads) := select_loop campaigns_sorted [] 0 in
      selected_campaigns ← loc campaigns_sorted selected_indices;
      set_stat "campaigns_selected" (Z.of_nat (length selected_campaigns));;
      log INFO (MSelected (length selected_campaigns) cumulative_leads);;
      mret selected_campaigns
  end.

(** The loop of [create_deletion_backup] over the selected campaigns; the
    result is [all_deletion_leads]. *)
Fixpoint backup_loop (all_deletion_leads : list DataFrame) (selected_campaigns : ReportFrame)
    : M (list DataFrame) :=
  match selected_campaigns with
  | [] => mret all_deletion_leads
  | (_, campaign_row) :: rest =>
      let campaign_id := rr_campaign_id campaign_row in
      let campaign_name := rr_campaign_name campaign_row in
      log INFO (MProcessingCampaign campaign_id);;
      leads_file ← export_leads_csv campaign_id;
      match leads_file with
      | None =>
          log ERROR (MExportFailed campaign_id);;
          backup_loop all_deletion_leads rest
      | Some f =>
          '(no_reply_df, total_leads, no_reply_count) ← analyze_campaign_leads f;
          if df_empty no_reply_df then backup_loop all_deletion_leads rest
          else
            stamp ← now;
            let no_reply_df :=
              df_set_column "Backup Timestamp" (CInt stamp)
                (df_set_column "Campaign Name" (CStr campaign_name)
                   (df_set_column "Campaign ID" campaign_id no_reply_df)) in
            add_stat "total_leads_exported" total_leads;;
            add_stat "no_reply_leads_found" no_reply_count;;
            backup_loop (all_deletion_leads ++ [no_reply_df]) rest
      end
  end.

Definition create_deletion_backup (selected_campaigns : ReportFrame)
    : M (option Path * DataFrame) :=
  log INFO MCreatingBackup;;
  timestamp ← now;
  let backup_csv := BackupCsv timestamp in
  modify (fun s => set_output_files (output_files s ++ [backup_csv]) s);;
  all_deletion_leads ← backup_loop [] selected_campaigns;
  match all_deletion_leads with
  | _ :: _ =>
      let backup_df := pd_concat all_deletion_leads in
      write_file backup_csv (FLeads (Some backup_df));;
      set_stat "leads_backed_up" (df_len backup_df);;
      log INFO (MBackupCreated backup_csv (df_len backup_df));;
      mret (Some backup_csv, backup_df)
  | [] =>
      log WARNING MNoLeadsForBackup;;
      mret (None, empty_frame)
  end.

(** [response and response.status_code == code] *)
Definition status_is (response : option Response) (code : Z) : bool :=
  match response with
  | Some resp => response_ok resp && (status_code resp =? code)
  | None => false
  end.

Definition delete_single_lead (campaign_id lead_id : cell) : M bool :=
  response ← send_request (DeleteLead campaign_id lead_id);
  if status_is response 200 then mret true
  else if status_is response 404 then
    log WARNING (MAlreadyDeleted lead_id);; mret true
  else
    log ERROR (MDeleteFailed lead_id campaign_id);; mret false.

(** The loop of [delete_leads] over the rows of the backup, [idx] being the
    label of the first of them; the result is
    [(success_count, failed_count)]. *)
Fixpoint delete_loop (total : Z) (backup_rows : list Series) (idx : nat)
    (success_count failed_count : Z) : M (Z * Z) :=
  match backup_rows with
  | [] => mret (success_count, failed_count)
  | row :: rest =>
      let campaign_id := row !! "Campaign ID" in
      let lead_id := row !! "id" in
      if pd_isna campaign_id || pd_isna lead_id then
        log ERROR (MMissingId idx);;
        delete_loop total rest (S idx) success_count (failed_count + 1)
      else
        deleted ← delete_single_lead (default CNaN campaign_id) (default CNaN lead_id);
        let success_count := if (deleted : bool) then success_count + 1 else success_count in
        let failed_count := if (deleted : bool) then failed_count else failed_count + 1 in
        sleep 500;;
        (if (success_count + failed_count) `mod` 100 =? 0 then
           log INFO (MProgress (success_count + failed_count) total)
         else mret tt);;
        delete_loop total rest (S idx) success_count failed_count
  end.

Definition delete_leads (backup_df : DataFrame) : M unit :=
  if df_empty backup_df then log INFO MNoLeadsToDelete
  else
    log INFO (MStartDeletion (df_len backup_df));;
    '(success_count, failed_count) ← delete_loop (df_len backup_df) (rows backup_df) 0 0 0;
    set_stat "leads_deleted_success" success_count;;
    set_stat "leads_deleted_failed" failed_count;;
    log INFO (MDeletionCompleted success_count failed_count).

Definition send_completion_email (log_filename : Path) : M unit :=
  timestamp ← now;
  today ← now;
  s ← get_state;
  let attachments := log_filename :: output_files s in
  sent ← send_email DeletionComplete (CompletionBody (execution_stats s)) attachments;
  if (sent : bool) then log INFO MCompletionEmailSent
  else log ERROR MCompletionEmailFailed.

Definition send_failure_email (log_filename : Path) (error_message : Exn) : M unit :=
  today ← now;
  timestamp ← now;
  s ← get_state;
  let attachments := log_filename :: output_files s in
  send_email (DeletionFailed error_message) (FailureBody error_message) attachments;;
  mret tt.

Definition run_full_process (log_filename : Path) : M unit :=
  start_time ← now;
  try_except
    (log INFO (MStep 1);;
     campaigns ← fetch_all_campaigns;
     (if bool_decide (campaigns = []) then raise (HaltError NoCampaignsRetrieved) else mret tt);;
     log INFO (MStep 2);;
     filtered_campaigns ← filter_and_analyze_campaigns campaigns;
     (if bool_decide (filtered_campaigns = []) then raise (HaltError NoCampaignsMatch) else mret tt);;
     log INFO (MStep 3);;
     selected_campaigns ← select_campaigns_for_deletion filtered_campaigns;
     (if bool_decide (length selected_campaigns = 0%nat) then
        raise (HaltError NoCampaignsSelected) else mret tt);;
     log INFO (MStep 4);;
     '(backup_file, backup_df) ← create_deletion_backup selected_campaigns;
     (if df_empty backup_df then raise (HaltError NoLeadsForBackup) else mret tt);;
     log INFO (MStep 5);;
     delete_leads backup_df;;
     finish_time ← now;
     set_stat "execution_time" (finish_time - start_time);;
     log INFO (MStep 6);;
     send_completion_email log_filename;;
     log INFO MCompleted)
    (fun e =>
       log ERROR (MProcessFailed e);;
       send_failure_email log_filename e;;
       raise e).

(** [validate_environment]: every required value is non-empty. *)
Definition validate_environment : M unit :=
  let required_vars :=
    [API_KEY cfg; SENDER_EMAIL cfg; APP_PASSWORD cfg; String.substring 0 1 (RECIPIENT_EMAILS cfg)] in
  if forallb (fun v => negb (String.eqb v "")) required_vars then
    emit Printed
  else raise ValueError.

(** [setup_logging]: the log file is created by its [FileHandler]. *)
Definition setup_logging : M Path :=
  log_timestamp ← now;
  let log_filename := LogFile log_timestamp in
  write_file log_filename FLog;;
  mret log_filename.

(** [SmartLeadProcessor.__init__] *)
Definition init_processor : M unit :=
  modify (fun s =>
    set_output_files []
      (set_stats
         (list_to_map
            (map (fun k : string => (k, 0))
               ["campaigns_fetched"; "campaigns_filtered"; "campaigns_selected";
                "total_leads_exported"; "no_reply_leads_found"; "leads_backed_up";
                "leads_deleted_success"; "leads_deleted_failed"; "execution_time"]))
         s)).

(** [main]; the result is the exit status of the process. *)
Definition main : M Z :=
  try_except
    (validate_environment;;
     log_filename ← setup_logging;
     log INFO MStarted;;
     log INFO MTarget;;
     init_processor;;
     run_full_process log_filename;;
     mret 0)
    (fun e => emit Printed;; emit (Exited 1);; mret 1).

End Script.

(** ** Specification vocabulary *)

(** What the script relies on from [sort_values]: the result holds the same
    rows, larger counts first.  Nothing is said of rows with equal counts. *)
Definition no_reply_ge (a b : nat * ReportRow) : Prop :=
  rr_no_reply_leads b.2 <= rr_no_reply_leads a.2.

Definition sort_values_spec (sort_values : ReportFrame -> ReportFrame) : Prop :=
  forall df, Permutation (sort_values df) df /\ StronglySorted no_reply_ge (sort_values df).

(** Both identifiers of a backup row are there. *)
Definition has_identifiers (row : Series) : bool :=
  negb (pd_isna (row !! "Campaign ID") || pd_isna (row !! "id")).

(** The rate-limiting delay of [delete_leads]. *)
Definition is_delay (e : Event) : bool :=
  match e with
  | Slept ms => ms =? 500
  | _ => false
  end.

Definition is_progress (e : Event) : bool :=
  match e with
  | Logged _ (MProgress _ _) => true
  | _ => false
  end.

Fixpoint count_events (f : Event -> bool) (t : list Event) : nat :=
  match t with
  | [] => 0
  | e :: rest => (if f e then 1 else 0) + count_events f rest
  end.

(** Only the clock and the request counter moved. *)
Definition ticked (s s' : State) : Prop :=
  exists n, s' = set_tick (tick s + n) s.

(** The state [s'] differs from [s] in exported leads files, in statistics
    and in the counter only. *)
Definition extends (s s' : State) : Prop :=
  output_files s' = output_files s /\
  forall p, (forall c, p <> ExportCsv c) -> read_file (files s') p = read_file (files s) p.

(** A computation keeps [R] between the state it starts from and the state
    it leaves, and emits events of [P] only. *)
Definition obeys {A} (R : State -> State -> Prop) (P : Event -> Prop) (m : M A) : Prop :=
  forall s, R s (final (m s)) /\ Forall P (trace (m s)).

(** A computation that does not raise. *)
Definition total {A} (m : M A) : Prop :=
  forall s, exists a, value (m s) = Ok a.

(** The events of one [send_request r]. *)
Definition request_event (r : Request) (e : Event) : Prop :=
  match e with
  | Http r' => r' = r
  | Logged ERROR (MRequestError _ r') => r' = r
  | Slept ms => exists k, ms = 1000 * k
  | _ => False
  end.

(** The events of one [delete_single_lead campaign_id lead_id]. *)
Definition single_delete_event (campaign_id lead_id : cell) (e : Event) : Prop :=
  match e with
  | Logged WARNING (MAlreadyDeleted l) => l = lead_id
  | Logged ERROR (MDeleteFailed l c) => l = lead_id /\ c = campaign_id
  | _ => request_event (DeleteLead campaign_id lead_id) e
  end.

(** The processed count after a record, when the counters held [n] before. *)
Definition progress_log (total n : Z) : list Event :=
  if (n + 1) `mod` 100 =? 0 then [Logged INFO (MProgress (n + 1) total)] else [].

(** Every file of [paths] can be read, the first one at oracle index [n]. *)
Fixpoint all_readable (w : World) (n : nat) (paths : list Path) : bool :=
  match paths with
  | [] => true
  | p :: rest => readable w n p && all_readable w (S n) rest
  end.

(** The four assignments that build the message go through. *)
Definition message_built (cfg : Config) (w : World) (subject : Subject) (body : Body) : bool :=
  header_accepted w (From (SENDER_EMAIL cfg))
  && header_accepted w (To (recipients_header (RECIPIENT_EMAILS cfg)))
  && header_accepted w (SubjectLine subject)
  && content_accepted w body.

(** Every step of [send_email] goes through: the message is built, the
    attachments that exist are read, the TLS context is made and the SMTP
    session succeeds. *)
Definition dispatched (cfg : Config) (w : World) (subject : Subject) (body : Body)
    (attachments : list Path) (s : State) : bool :=
  let found := filter (present s) attachments in
  message_built cfg w subject body
  && all_readable w (tick s) found
  && ssl_context w (tick s + length found)
  && smtp_accepts w (S (tick s + length found)).

(** ** Concrete runs *)

Definition empty_state : State := mkState 0 [] ∅ [].

(** A platform on which every lead is already gone: each DELETE is answered
    with status 404; nothing else is reachable. *)
Definition not_found_world : World :=
  mkWorld
    (fun _ r =>
       match r with
       | DeleteLead _ _ => Responded (mkResponse 404 false None None)
       | _ => Unreachable
       end)
    (fun n => Z.of_nat n)
    (fun _ => true) (fun _ => true) (fun _ _ => true) (fun _ => true)
    (fun _ => true).

Definition backup_columns : list string :=
  ["id"; "reply_count"; "Campaign ID"; "Campaign Name"; "Backup Timestamp"].

(** A backup of one lead, lead 42 of campaign 7. *)
Definition one_lead_backup : DataFrame :=
  mkDataFrame backup_columns
    [list_to_map [("id", CInt 42); ("reply_count", CInt 0); ("Campaign ID", CInt 7);
                  ("Campaign Name", CStr "Spring"); ("Backup Timestamp", CInt 1000)]].

(** A backup of one row whose lead identifier is missing. *)
Definition backup_without_id : DataFrame :=
  mkDataFrame backup_columns
    [list_to_map [("id", CNaN); ("reply_count", CInt 0); ("Campaign ID", CInt 7);
                  ("Campaign Name", CStr "Spring"); ("Backup Timestamp", CInt 1000)]].

Definition is_delete_attempt (e : Event) : bool :=
  match e with
  | Http (DeleteLead _ _) => true
  | _ => false
  end.

(** An exported leads file of one lead whose reply count is missing. *)
Definition lead_without_reply_count : Series :=
  list_to_map [("id", CInt 1); ("reply_count", CNaN)].

Definition state_with_leads (df : DataFrame) : State :=
  mkState 0 [(ExportCsv (CInt 7), FLeads (Some df))] ∅ [].

(** An exported leads file of three leads: no reply, two replies, no reply. *)
Definition three_leads : DataFrame :=
  mkDataFrame ["id"; "reply_count"]
    [list_to_map [("id", CInt 1); ("reply_count", CInt 0)];
     list_to_map [("id", CInt 2); ("reply_count", CInt 2)];
     list_to_map [("id", CInt 3); ("reply_count", CInt 0)]].

(** The events of the stages that fetch, filter and select: no step header
    of [run_full_process], no delete call, no backup file, no mail, no exit. *)
Definition background (e : Event) : Prop :=
  match e with
  | Logged _ (MStep _) => False
  | Logged _ (MProcessFailed _) => False
  | Http (DeleteLead _ _) => False
  | Wrote (BackupCsv _) _ => False
  | Smtp _ _ => False
  | Printed => False
  | Exited _ => False
  | _ => True
  end.

(** The timestamps of the campaign parse. *)
Definition parses (campaign : Campaign) : bool :=
  match created_at campaign, updated_at campaign with
  | Some _, Some _ => true
  | _, _ => false
  end.

(** The inclusion decision of a campaign, [false] when its timestamps do not
    parse (such a campaign is skipped). *)
Definition eligible (cfg : Config) (cutoff_date : Z) (campaign : Campaign) : bool :=
  match created_at campaign, updated_at campaign with
  | Some created, Some _ => include_campaign cfg cutoff_date campaign created
  | _, _ => false
  end.

(** The relation that holds between any two states. *)
Definition anyhow (s s' : State) : Prop := True.

Definition is_attempt (e : Event) : bool :=
  match e with
  | Http _ => true
  | _ => false
  end.

(** What one failed attempt of [send_request] leaves in the trace. *)
Definition failed_attempt (cfg : Config) (r : Request) (attempt : nat) : list Event :=
  [Http r; Logged ERROR (MRequestError attempt r);
   Slept (1000 * BACKOFF_FACTOR cfg ^ Z.of_nat attempt)].

(** A paused campaign of client 5, created at time 0. *)
Definition spring_campaign : Campaign :=
  mkCampaign (CInt 7) "Spring" "PAUSED" (Some 5) (Some 0) (Some 0).

(** An active campaign, and a campaign whose creation time does not parse. *)
Definition active_campaign : Campaign :=
  mkCampaign (CInt 8) "Summer" "ACTIVE" (Some 5) (Some 0) (Some 0).

Definition undated_campaign : Campaign :=
  mkCampaign (CInt 9) "Autumn" "PAUSED" (Some 5) None (Some 0).

(** A platform in working order: three campaigns, every export is the
    leads file [three_leads], every DELETE is answered with status 200.  The
    clock starts 10,000,000 seconds after time 0. *)
Definition healthy_world : World :=
  mkWorld
    (fun _ r =>
       match r with
       | GetCampaigns =>
           Responded (mkResponse 200 false
                        (Some [spring_campaign; active_campaign; undated_campaign]) None)
       | GetLeadsExport _ => Responded (mkResponse 200 true None (Some three_leads))
       | DeleteLead _ _ => Responded (mkResponse 200 false None None)
       end)
    (fun n => 10000000 + Z.of_nat n)
    (fun _ => true) (fun _ => true) (fun _ _ => true) (fun _ => true)
    (fun _ => true).

(** What the turn of [delete_leads] for the record [row] of label [i]
    leaves in the trace.  For a record that has both identifiers: the events
    [calls] of its delete call (attempts, error lines, back-off sleeps, which
    are whole seconds), then the delay of half a second, then the progress
    line when [i + 1] is a multiple of 100.  For a record that lacks one: the
    error line, no delay and no request. *)
Definition record_segment (cfg : Config) (total : Z) (i : nat) (row : Series)
    (segment : list Event) : Prop :=
  if has_identifiers row then
    exists c l calls,
      row !! "Campaign ID" = Some c /\ row !! "id" = Some l /\
      segment = calls ++ Slept 500 :: progress_log total (Z.of_nat i) /\
      Forall (single_delete_event c l) calls /\
      ((0 < MAX_RETRIES cfg)%nat -> exists rest, calls = Http (DeleteLead c l) :: rest)
  else
    Logged ERROR (MMissingId i) ∈ segment /\
    Forall (fun e => is_delay e = false /\ is_attempt e = false) segment.

(** The records of a backup, from label [i] on, and their segments. *)
Fixpoint record_segments (cfg : Config) (total : Z) (i : nat) (backup_rows : list Series)
    (segments : list (list Event)) : Prop :=
  match backup_rows, segments with
  | [], [] => True
  | row :: backup_rows, segment :: segments =>
      record_segment cfg total i row segment /\
      record_segments cfg total (S i) backup_rows segments
  | _, _ => False
  end.

Definition lead_row (lead_id : cell) : Series :=
  list_to_map [("id", lead_id); ("reply_count", CInt 0); ("Campaign ID", CInt 7);
               ("Campaign Name", CStr "Spring"); ("Backup Timestamp", CInt 1000)].

(** A backup of 100 records, the last of which lacks its lead identifier. *)
Definition hundred_records : DataFrame :=
  mkDataFrame backup_columns (replicate 99 (lead_row (CInt 42)) ++ [lead_row CNaN]).

(** * Properties *)

(** ** Running the monad *)

Section Run.

Context {A B : Type}.

Lemma run_bind (m : M A) (k : A -> M B) s :
  (m ≫= k) s =
    match value (m s) with
    | Ok a => prepend (trace (m s)) (k a (final (m s)))
    | Raise e => mkOut (Raise e) (final (m s)) (trace (m s))
    end.
Proof. reflexivity. Qed.

(** A step that is known to return. *)
Lemma run_bind_out (m : M A) (k : A -> M B) s a s' t :
  m s = mkOut (Ok a) s' t -> (m ≫= k) s = prepend t (k a s').
Proof. intros H. rewrite run_bind, H. reflexivity. Qed.

Lemma run_bind_raise (m : M A) (k : A -> M B) s e s' t :
  m s = mkOut (Raise e) s' t -> (m ≫= k) s = mkOut (Raise e) s' t.
Proof. intros H. rewrite run_bind, H. reflexivity. Qed.

Lemma run_try_except (m : M A) (h : Exn -> M A) s :
  try_except m h s =
    match value (m s) with
    | Ok a => m s
    | Raise e => prepend (trace (m s)) (h e (final (m s)))
    end.
Proof. reflexivity. Qed.

Lemma run_ret (a : A) s : (mret a : M A) s = mkOut (Ok a) s [].
Proof. reflexivity. Qed.

Lemma ret_bind (a : A) (k : A -> M B) s : (mret a ≫= k) s = prepend [] (k a s).
Proof. reflexivity. Qed.

Lemma raise_bind e (k : A -> M B) s : (raise e ≫= k) s = mkOut (Raise e) s [].
Proof. reflexivity. Qed.

Lemma bind_assoc {C} (m : M A) (f : A -> M B) (k : B -> M C) s :
  ((m ≫= f) ≫= k) s = (m ≫= (fun a => f a ≫= k)) s.
Proof.
  unfold mbind, M_bind, bind. destruct (value (m s)) as [a|e]; [|reflexivity].
  cbn. destruct (value (f a (final (m s)))) as [b|e]; [|reflexivity].
  unfold prepend; cbn. rewrite app_assoc. reflexivity.
Qed.

Lemma prepend_nil (o : Out A) : prepend [] o = o.
Proof. destruct o; reflexivity. Qed.

Lemma prepend_prepend t1 t2 (o : Out A) :
  prepend t1 (prepend t2 o) = prepend (t1 ++ t2) o.
Proof. unfold prepend; cbn. rewrite app_assoc. reflexivity. Qed.

Lemma prepend_out t (v : Result A) s t' :
  prepend t (mkOut v s t') = mkOut v s (t ++ t').
Proof. reflexivity. Qed.

Lemma value_prepend t (o : Out A) : value (prepend t o) = value o.
Proof. reflexivity. Qed.

Lemma final_prepend t (o : Out A) : final (prepend t o) = final o.
Proof. reflexivity. Qed.

Lemma trace_prepend t (o : Out A) : trace (prepend t o) = t ++ trace o.
Proof. reflexivity. Qed.

End Run.

Lemma out_eta {A} (o : Out A) : o = mkOut (value o) (final o) (trace o).
Proof. destruct o; reflexivity. Qed.

Section Primitives.

Context {B : Type} (w : World).

Lemma get_state_bind (k : State -> M B) s : (get_state ≫= k) s = k s s.
Proof. unfold mbind, M_bind, bind; cbn. apply prepend_nil. Qed.

Lemma modify_bind f (k : unit -> M B) s : (modify f ≫= k) s = k tt (f s).
Proof. unfold mbind, M_bind, bind; cbn. apply prepend_nil. Qed.

Lemma emit_bind e (k : unit -> M B) s : (emit e ≫= k) s = prepend [e] (k tt s).
Proof. reflexivity. Qed.

Lemma log_bind l m (k : unit -> M B) s :
  (log l m ≫= k) s = prepend [Logged l m] (k tt s).
Proof. reflexivity. Qed.

Lemma sleep_bind ms (k : unit -> M B) s :
  (sleep ms ≫= k) s = prepend [Slept ms] (k tt s).
Proof. reflexivity. Qed.

Lemma set_stat_bind key v (k : unit -> M B) s :
  (set_stat key v ≫= k) s = k tt (set_stats (<[key:=v]> (execution_stats s)) s).
Proof. unfold set_stat. rewrite modify_bind. reflexivity. Qed.

Lemma add_stat_bind key v (k : unit -> M B) s :
  (add_stat key v ≫= k) s =
    k tt (set_stats (<[key:=stat s key + v]> (execution_stats s)) s).
Proof. unfold add_stat. rewrite modify_bind. reflexivity. Qed.

Lemma write_file_bind p f (k : unit -> M B) s :
  (write_file p f ≫= k) s = prepend [Wrote p f] (k tt (set_files ((p, f) :: files s) s)).
Proof. reflexivity. Qed.

Lemma delete_file_bind p (k : unit -> M B) s :
  (delete_file p ≫= k) s =
    prepend [Removed p] (k tt (set_files (remove_file (files s) p) s)).
Proof. reflexivity. Qed.

Lemma isfile_bind p (k : bool -> M B) s :
  (isfile p ≫= k) s = k (bool_decide (present s p)) s.
Proof. unfold mbind, M_bind, bind; cbn. apply prepend_nil. Qed.

Lemma now_bind (k : Z -> M B) s :
  (now w ≫= k) s = k (clock w (tick s)) (set_tick (S (tick s)) s).
Proof. unfold mbind, M_bind, bind; cbn. apply prepend_nil. Qed.

Lemma http_request_bind r (k : Outcome -> M B) s :
  (http_request w r ≫= k) s =
    prepend [Http r] (k (remote w (tick s) r) (set_tick (S (tick s)) s)).
Proof. reflexivity. Qed.

End Primitives.

Create Rewrite HintDb run.
#[local] Hint Rewrite <- @app_assoc : run.
#[local] Hint Rewrite @get_state_bind @modify_bind @emit_bind @log_bind @sleep_bind
  @set_stat_bind @add_stat_bind @write_file_bind @delete_file_bind @isfile_bind
  @now_bind @http_request_bind @ret_bind @raise_bind @run_ret @bind_assoc
  @prepend_prepend @prepend_out @prepend_nil
  @value_prepend @final_prepend @trace_prepend @app_nil_r : run.

Ltac run := repeat (autorewrite with run; cbn [value final trace app]).

(** ** The notification *)

Section Email.

Context (cfg : Config) (w : World).

Lemma set_header_bind {B} h (k : unit -> M B) s :
  (set_header w h ≫= k) s =
    if header_accepted w h then k tt s else mkOut (Raise EmailError) s [].
Proof.
  unfold set_header. destruct (header_accepted w h); [|reflexivity].
  rewrite ret_bind. apply prepend_nil.
Qed.

Lemma set_content_bind {B} body (k : unit -> M B) s :
  (set_content w body ≫= k) s =
    if content_accepted w body then k tt s else mkOut (Raise EmailError) s [].
Proof.
  unfold set_content. destruct (content_accepted w body); [|reflexivity].
  rewrite ret_bind. apply prepend_nil.
Qed.

Lemma read_attachment_bind {B} p (k : unit -> M B) s :
  (read_attachment w p ≫= k) s =
    if readable w (tick s) p then k tt (set_tick (S (tick s)) s)
    else mkOut (Raise OSError) (set_tick (S (tick s)) s) [].
Proof.
  unfold read_attachment. run. destruct (readable w (tick s) p); run; reflexivity.
Qed.

Lemma create_default_context_bind {B} (k : unit -> M B) s :
  (create_default_context w ≫= k) s =
    if ssl_context w (tick s) then k tt (set_tick (S (tick s)) s)
    else mkOut (Raise SSLError) (set_tick (S (tick s)) s) [].
Proof.
  unfold create_default_context. run. destruct (ssl_context w (tick s)); run; reflexivity.
Qed.

Lemma smtp_send_bind {B} subject attached (k : unit -> M B) s :
  (smtp_send w subject attached ≫= k) s =
    if smtp_accepts w (tick s) then
      prepend [Smtp subject attached] (k tt (set_tick (S (tick s)) s))
    else mkOut (Raise SMTPException) (set_tick (S (tick s)) s) [Smtp subject attached].
Proof.
  unfold smtp_send. run. destruct (smtp_accepts w (tick s)); run; reflexivity.
Qed.

Lemma filter_present_set_tick n s (l : list Path) :
  filter (present (set_tick n s)) l = filter (present s) l.
Proof. reflexivity. Qed.

Lemma filter_absent_set_tick n s (l : list Path) :
  filter (fun p => ¬ present (set_tick n s) p) l = filter (fun p => ¬ present s p) l.
Proof. reflexivity. Qed.

(** The attachments that exist are read in turn; the paths that are no file
    are logged. *)
Lemma attach_files_ok attachments : forall s,
  all_readable w (tick s) (filter (present s) attachments) = true ->
  attach_files w attachments s =
    mkOut (Ok (filter (present s) attachments))
      (set_tick (tick s + length (filter (present s) attachments)) s)
      (map (fun p => Logged WARNING (MAttachmentNotFound p))
         (filter (fun p => ¬ present s p) attachments)).
Proof.
  induction attachments as [|p rest IH]; intros s.
  - intros _. cbn. replace (tick s + 0)%nat with (tick s) by lia. destruct s; reflexivity.
  - cbn [attach_files]. rewrite isfile_bind, !filter_cons.
    destruct (decide (present s p)) as [Hp|Hp].
    + rewrite bool_decide_eq_true_2 by assumption.
      cbn [all_readable]. intros [Hr Hrest]%andb_true_iff.
      rewrite read_attachment_bind, Hr.
      rewrite (run_bind_out _ _ _ _ _ _ (IH (set_tick (S (tick s)) s) Hrest)). run.
      destruct (decide (¬ present s p)); [contradiction|].
      rewrite filter_present_set_tick, filter_absent_set_tick. cbn [length].
      f_equal. unfold set_tick; cbn. f_equal. lia.
    + rewrite bool_decide_eq_false_2 by assumption. intros Hrest.
      run. rewrite (IH s Hrest). run.
      destruct (decide (¬ present s p)); [|contradiction].
      reflexivity.
Qed.

Lemma attach_files_fail attachments : forall s,
  all_readable w (tick s) (filter (present s) attachments) = false ->
  value (attach_files w attachments s) = Raise OSError.
Proof.
  induction attachments as [|p rest IH]; intros s.
  - discriminate.
  - cbn [attach_files]. rewrite isfile_bind, !filter_cons.
    destruct (decide (present s p)) as [Hp|Hp].
    + rewrite bool_decide_eq_true_2 by assumption.
      cbn [all_readable]. rewrite read_attachment_bind.
      destruct (readable w (tick s) p); [|reflexivity].
      cbn [andb]. intros Hrest. rewrite run_bind.
      rewrite (IH (set_tick (S (tick s)) s) Hrest). reflexivity.
    + rewrite bool_decide_eq_false_2 by assumption. intros Hrest.
      run. exact (IH s Hrest).
Qed.

(** What [send_email] returns. *)
Lemma send_email_value subject body attachments s :
  value (send_email cfg w subject body attachments s)
  = Ok (dispatched cfg w subject body attachments s).
Proof.
  unfold send_email, dispatched, message_built. rewrite run_try_except.
  rewrite set_header_bind.
  destruct (header_accepted w (From _)); [|reflexivity].
  rewrite set_header_bind.
  destruct (header_accepted w (To _)); [|reflexivity].
  rewrite set_header_bind.
  destruct (header_accepted w (SubjectLine _)); [|reflexivity].
  rewrite set_content_bind.
  destruct (content_accepted w body); [|reflexivity].
  cbn [andb].
  destruct (all_readable w (tick s) (filter (present s) attachments)) eqn:Hread.
  - rewrite (run_bind_out _ _ _ _ _ _ (attach_files_ok attachments s Hread)).
    rewrite create_default_context_bind. cbn [tick set_tick].
    destruct (ssl_context w _); [|reflexivity].
    rewrite smtp_send_bind. cbn [tick set_tick andb].
    destruct (smtp_accepts w _); reflexivity.
  - rewrite run_bind, (attach_files_fail attachments s Hread). reflexivity.
Qed.

(** The trace of a run in which the message is built and the attachments
    are read. *)
Lemma send_email_trace subject body attachments s :
  message_built cfg w subject body = true ->
  all_readable w (tick s) (filter (present s) attachments) = true ->
  exists rest,
    trace (send_email cfg w subject body attachments s) =
      map (fun p => Logged WARNING (MAttachmentNotFound p))
        (filter (fun p => ¬ present s p) attachments) ++ rest /\
    (dispatched cfg w subject body attachments s = true ->
     rest = [Smtp subject (filter (present s) attachments); Logged INFO MEmailSent]).
Proof.
  unfold message_built, dispatched, message_built.
  intros [[[H1 H2]%andb_true_iff H3]%andb_true_iff H4]%andb_true_iff Hread.
  unfold send_email. rewrite run_try_except.
  rewrite !set_header_bind, H1, H2, H3, set_content_bind, H4.
  cbn [andb]. rewrite Hread. cbn [andb].
  rewrite (run_bind_out _ _ _ _ _ _ (attach_files_ok attachments s Hread)).
  rewrite create_default_context_bind. cbn [tick set_tick].
  destruct (ssl_context w _).
  - rewrite smtp_send_bind. cbn [tick set_tick andb].
    destruct (smtp_accepts w _); run; eexists; (split; [reflexivity|]).
    + reflexivity.
    + discriminate.
  - run. eexists. split; [reflexivity|discriminate].
Qed.

End Email.

(** ** Computations that keep a relation and an alphabet of events *)

#[local] Instance ticked_refl : Reflexive ticked.
Proof. intros s. exists 0%nat. destruct s; cbn. unfold set_tick; cbn. f_equal. lia. Qed.

#[local] Instance ticked_trans : Transitive ticked.
Proof.
  intros a b c [n ->] [m ->]. exists (n + m)%nat.
  destruct a; unfold set_tick; cbn. f_equal. lia.
Qed.

#[local] Instance extends_refl : Reflexive extends.
Proof. intros s. split; [reflexivity|]. intros; reflexivity. Qed.

#[local] Instance extends_trans : Transitive extends.
Proof.
  intros a b c [Hab1 Hab2] [Hbc1 Hbc2]. split; [congruence|].
  intros p Hp. rewrite Hbc2, Hab2 by assumption. reflexivity.
Qed.

Lemma ticked_extends s s' : ticked s s' -> extends s s'.
Proof. intros [n ->]. split; [reflexivity|]. intros; reflexivity. Qed.

Section Obeys.

Context (R : State -> State -> Prop) `{!Reflexive R, !Transitive R}.
Context (P : Event -> Prop).

Lemma obeys_ret {A} (a : A) : obeys R P (mret a).
Proof. intros s. split; [reflexivity|constructor]. Qed.

Lemma obeys_raise {A} e : obeys R P (raise e : M A).
Proof. intros s. split; [reflexivity|constructor]. Qed.

Lemma obeys_bind {A B} (m : M A) (k : A -> M B) :
  obeys R P m -> (forall a, obeys R P (k a)) -> obeys R P (m ≫= k).
Proof.
  intros Hm Hk s. rewrite run_bind. destruct (Hm s) as [Hr Ht].
  destruct (value (m s)) as [a|e]; [|split; assumption].
  destruct (Hk a (final (m s))) as [Hr' Ht']. cbn. split.
  - etransitivity; eassumption.
  - apply Forall_app. split; assumption.
Qed.

Lemma obeys_try {A} (m : M A) (h : Exn -> M A) :
  obeys R P m -> (forall e, obeys R P (h e)) -> obeys R P (try_except m h).
Proof.
  intros Hm Hh s. rewrite run_try_except. destruct (Hm s) as [Hr Ht].
  destruct (value (m s)) as [a|e]; [split; assumption|].
  destruct (Hh e (final (m s))) as [Hr' Ht']. cbn. split.
  - etransitivity; eassumption.
  - apply Forall_app. split; assumption.
Qed.

Lemma obeys_emit e : P e -> obeys R P (emit e).
Proof. intros He s. split; [reflexivity|]. repeat constructor. exact He. Qed.

Lemma obeys_log l m : P (Logged l m) -> obeys R P (log l m).
Proof. apply obeys_emit. Qed.

Lemma obeys_sleep ms : P (Slept ms) -> obeys R P (sleep ms).
Proof. apply obeys_emit. Qed.

Lemma obeys_get_state : obeys R P get_state.
Proof. intros s. split; [reflexivity|constructor]. Qed.

Lemma obeys_modify f : (forall s, R s (f s)) -> obeys R P (modify f).
Proof. intros Hf s. split; [apply Hf|constructor]. Qed.

Lemma obeys_isfile p : obeys R P (isfile p).
Proof. apply obeys_bind; [apply obeys_get_state|intros; apply obeys_ret]. Qed.

End Obeys.

Lemma obeys_weaken {A} (R R' : State -> State -> Prop) (P P' : Event -> Prop) (m : M A) :
  (forall s s', R' s s' -> R s s') -> (forall e, P' e -> P e) ->
  obeys R' P' m -> obeys R P m.
Proof.
  intros HR HP Hm s. destruct (Hm s) as [Hr Ht]. split; [auto|].
  eapply Forall_impl; eassumption.
Qed.

Lemma total_ret {A} (a : A) : total (mret a).
Proof. intros s. exists a. reflexivity. Qed.

Lemma total_bind {A B} (m : M A) (k : A -> M B) :
  total m -> (forall a, total (k a)) -> total (m ≫= k).
Proof.
  intros Hm Hk s. rewrite run_bind. destruct (Hm s) as [a ->].
  destruct (Hk a (final (m s))) as [b Hb]. exists b. exact Hb.
Qed.

Lemma total_try {A} (m : M A) (h : Exn -> M A) :
  (forall e, total (h e)) -> total (try_except m h).
Proof.
  intros Hh s. rewrite run_try_except.
  destruct (value (m s)) as [a|e] eqn:E; [exists a; exact E|].
  destruct (Hh e (final (m s))) as [b Hb]. exists b. exact Hb.
Qed.

Lemma total_emit e : total (emit e).
Proof. intros s. exists tt. reflexivity. Qed.

Lemma total_modify f : total (modify f).
Proof. intros s. exists tt. reflexivity. Qed.

Lemma total_get_state : total get_state.
Proof. intros s. exists s. reflexivity. Qed.

(** One structural step on a goal [obeys R P m] or [total m]. *)
Ltac structural :=
  lazymatch goal with
  | |- obeys _ _ (mret _) => apply obeys_ret; try exact _
  | |- obeys _ _ (raise _) => apply obeys_raise; try exact _
  | |- obeys _ _ (_ ≫= _) => apply obeys_bind; [exact _| |intros ?]
  | |- obeys _ _ (try_except _ _) => apply obeys_try; [exact _| |intros ?]
  | |- obeys _ _ (log _ _) => apply obeys_log; [exact _|]
  | |- obeys _ _ (sleep _) => apply obeys_sleep; [exact _|]
  | |- obeys _ _ (emit _) => apply obeys_emit; [exact _|]
  | |- obeys _ _ get_state => apply obeys_get_state; exact _
  | |- obeys _ _ (isfile _) => apply obeys_isfile; exact _
  | |- obeys _ _ (modify _) => apply obeys_modify; intros ?
  | |- obeys _ _ (match ?x with _ => _ end) => destruct x
  | |- total (mret _) => apply total_ret
  | |- total (_ ≫= _) => apply total_bind; [|intros ?]
  | |- total (try_except _ _) => apply total_try; intros ?
  | |- total (log _ _) => apply total_emit
  | |- total (sleep _) => apply total_emit
  | |- total (emit _) => apply total_emit
  | |- total (modify _) => apply total_modify
  | |- total get_state => apply total_get_state
  | |- total (match ?x with _ => _ end) => destruct x
  end.

(** ** The remote client *)

Section Remote.

Context (cfg : Config) (w : World).

Lemma set_tick_set_tick a b s : set_tick a (set_tick b s) = set_tick a s.
Proof. reflexivity. Qed.

Lemma ticked_set_tick s : ticked s (set_tick (S (tick s)) s).
Proof. exists 1%nat. f_equal. lia. Qed.

Lemma obeys_http_request R `{!Reflexive R, !Transitive R} P r :
  (forall s, R s (set_tick (S (tick s)) s)) -> P (Http r) ->
  obeys R P (http_request w r).
Proof.
  intros HR HP s. split; [apply HR|]. repeat constructor. exact HP.
Qed.

Lemma obeys_now R `{!Reflexive R, !Transitive R} P :
  (forall s, R s (set_tick (S (tick s)) s)) -> obeys R P (now w).
Proof. intros HR s. split; [apply HR|constructor]. Qed.

Lemma send_request_from_obeys attempts r :
  obeys ticked (request_event r) (send_request_from cfg w attempts r).
Proof.
  induction attempts as [|attempt later IH]; cbn [send_request_from].
  - structural.
  - structural.
    + apply obeys_http_request; [exact _..|apply ticked_set_tick|reflexivity].
    + repeat structural; try exact IH; cbn; eauto.
Qed.

Lemma send_request_from_total attempts r : total (send_request_from cfg w attempts r).
Proof.
  induction attempts as [|attempt later IH]; cbn [send_request_from].
  - structural.
  - structural; [unfold http_request; repeat structural|].
    repeat structural; exact IH.
Qed.

(** A response that [send_request] hands over passed [raise_for_status]. *)
Lemma send_request_from_ok attempts r s resp :
  value (send_request_from cfg w attempts r s) = Ok (Some resp) ->
  raises_for_status resp = false.
Proof.
  revert s. induction attempts as [|attempt later IH]; intros s; cbn [send_request_from].
  - discriminate.
  - run. destruct (remote w (tick s) r) as [|resp'].
    + run. apply IH.
    + destruct (raises_for_status resp') eqn:E.
      * run. apply IH.
      * run. intros [= ->]. exact E.
Qed.

(** When every attempt fails, [send_request] gives up with [None]. *)
Lemma send_request_from_exhausted attempts r s :
  (forall n, match remote w n r with
             | Unreachable => True
             | Responded resp => raises_for_status resp = true
             end) ->
  value (send_request_from cfg w attempts r s) = Ok None.
Proof.
  intros Hfail. revert s.
  induction attempts as [|attempt later IH]; intros s; cbn [send_request_from].
  - reflexivity.
  - run. specialize (Hfail (tick s)).
    destruct (remote w (tick s) r) as [|resp'].
    + run. apply IH.
    + rewrite Hfail. run. apply IH.
Qed.

End Remote.

(** ** The deletion executor *)

Section Deletion.

Context (cfg : Config) (w : World).

(** The [elif] branch of [delete_single_lead] cannot be taken: a response
    of status 404 is falsy. *)
Lemma status_is_404 response : status_is response 404 = false.
Proof. destruct response as [resp|]; [|reflexivity]. cbn. unfold response_ok, raises_for_status.
  destruct (status_code resp =? 404) eqn:E; [|apply andb_false_r].
  apply Z.eqb_eq in E. rewrite E. reflexivity.
Qed.

Lemma delete_single_lead_obeys c l :
  obeys ticked (single_delete_event c l) (delete_single_lead cfg w c l).
Proof.
  unfold delete_single_lead. structural.
  - eapply obeys_weaken; [| |apply send_request_from_obeys]; [auto|].
    intros [[] []| | | | | | |]; cbn; try tauto.
  - repeat structural; cbn; auto.
Qed.

Lemma delete_single_lead_total c l : total (delete_single_lead cfg w c l).
Proof.
  unfold delete_single_lead. structural; [apply send_request_from_total|].
  repeat structural.
Qed.

(** A lead counts as deleted exactly when [send_request] handed over a
    response of status 200. *)
Lemma delete_single_lead_true c l s :
  value (delete_single_lead cfg w c l s) = Ok true <->
  exists resp, value (send_request cfg w (DeleteLead c l) s) = Ok (Some resp)
               /\ status_code resp = 200.
Proof.
  unfold delete_single_lead. rewrite run_bind.
  destruct (send_request_from_total cfg w (seq 1 (MAX_RETRIES cfg)) (DeleteLead c l) s)
    as [o Ho].
  unfold send_request. rewrite Ho. rewrite status_is_404.
  destruct o as [resp|]; cbn.
  - pose proof (send_request_from_ok _ _ _ _ _ _ Ho) as Hok.
    unfold response_ok. rewrite Hok. cbn.
    destruct (status_code resp =? 200) eqn:E; cbn.
    + apply Z.eqb_eq in E. split; [eauto|reflexivity].
    + apply Z.eqb_neq in E. split; [discriminate|].
      intros (resp' & [= <-] & ?). contradiction.
  - split; [discriminate|]. intros (resp' & [=] & _).
Qed.

(** A platform that answers "not found" to every attempt: the lead counts
    as failed. *)
Lemma delete_single_lead_not_found c l s :
  (forall n, exists resp, remote w n (DeleteLead c l) = Responded resp
                          /\ status_code resp = 404) ->
  value (delete_single_lead cfg w c l s) = Ok false.
Proof.
  intros H404. unfold delete_single_lead. rewrite run_bind.
  unfold send_request. rewrite send_request_from_exhausted.
  - reflexivity.
  - intros n. destruct (H404 n) as (resp & -> & Hs).
    unfold raises_for_status. rewrite Hs. reflexivity.
Qed.

Lemma delete_loop_missing total row rest idx sc fc s :
  has_identifiers row = false ->
  delete_loop cfg w total (row :: rest) idx sc fc s =
    prepend [Logged ERROR (MMissingId idx)]
      (delete_loop cfg w total rest (S idx) sc (fc + 1) s).
Proof.
  unfold has_identifiers. intros H%negb_false_iff.
  cbn [delete_loop]. rewrite H. run. reflexivity.
Qed.

Lemma delete_loop_present total row rest idx sc fc s :
  has_identifiers row = true ->
  exists c l b,
    row !! "Campaign ID" = Some c /\ row !! "id" = Some l /\
    value (delete_single_lead cfg w c l s) = Ok b /\
    delete_loop cfg w total (row :: rest) idx sc fc s =
      prepend (trace (delete_single_lead cfg w c l s)
               ++ Slept 500 :: progress_log total (sc + fc))
        (delete_loop cfg w total rest (S idx)
           (if b then sc + 1 else sc) (if b then fc else fc + 1)
           (final (delete_single_lead cfg w c l s))).
Proof.
  unfold has_identifiers. intros H%negb_true_iff.
  destruct (row !! "Campaign ID") as [c|] eqn:Ec; [|discriminate].
  destruct (row !! "id") as [l|] eqn:El; [|destruct c; discriminate].
  destruct (delete_single_lead_total c l s) as [b Hb].
  exists c, l, b. repeat split; try assumption.
  cbn [delete_loop]. rewrite Ec, El, H. cbn [default]. unfold Datatypes.id.
  rewrite run_bind, Hb. unfold progress_log.
  replace ((if b then sc + 1 else sc) + (if b then fc else fc + 1)) with (sc + fc + 1)
    by (destruct b; lia).
  destruct ((sc + fc + 1) `mod` 100 =? 0); run; reflexivity.
Qed.

Lemma count_events_app f t1 t2 :
  count_events f (t1 ++ t2) = (count_events f t1 + count_events f t2)%nat.
Proof. induction t1 as [|e t1 IH]; cbn; [reflexivity|]. rewrite IH. lia. Qed.

Lemma count_events_none f (P : Event -> Prop) t :
  (forall e, P e -> f e = false) -> Forall P t -> count_events f t = 0%nat.
Proof.
  intros HP. induction 1 as [|e t He _ IH]; cbn; [reflexivity|].
  rewrite (HP e He), IH. reflexivity.
Qed.

Lemma single_delete_no_delay c l e : single_delete_event c l e -> is_delay e = false.
Proof.
  destruct e as [[] []| |ms| | | | |]; cbn; try tauto.
  intros [k ->]. apply Z.eqb_neq. lia.
Qed.

Lemma single_delete_no_progress c l e k tot :
  single_delete_event c l e -> e <> Logged INFO (MProgress k tot).
Proof. destruct e as [[] []| | | | | | |]; cbn; try tauto; discriminate. Qed.

Lemma count_delay_progress_log total n : count_events is_delay (progress_log total n) = 0%nat.
Proof. unfold progress_log. destruct (_ =? _); reflexivity. Qed.

(** Every record ends in exactly one of the two counters. *)
Lemma delete_loop_counts total backup_rows idx sc fc s :
  exists sc' fc',
    value (delete_loop cfg w total backup_rows idx sc fc s) = Ok (sc', fc') /\
    sc' + fc' = sc + fc + Z.of_nat (length backup_rows) /\ sc <= sc' /\ fc <= fc'.
Proof.
  revert idx sc fc s.
  induction backup_rows as [|row rest IH]; intros idx sc fc s.
  - exists sc, fc. cbn. repeat split; lia.
  - destruct (has_identifiers row) eqn:Hrow.
    + destruct (delete_loop_present total row rest idx sc fc s Hrow)
        as (c & l & b & _ & _ & _ & ->).
      destruct (IH (S idx) (if b then sc + 1 else sc) (if b then fc else fc + 1)
                  (final (delete_single_lead cfg w c l s))) as (sc' & fc' & Hv & Hsum & ? & ?).
      exists sc', fc'. rewrite value_prepend. cbn [length].
      destruct b; repeat split; try assumption; lia.
    + rewrite (delete_loop_missing total row rest idx sc fc s Hrow).
      destruct (IH (S idx) sc (fc + 1) s) as (sc' & fc' & Hv & Hsum & ? & ?).
      exists sc', fc'. rewrite value_prepend. cbn [length].
      repeat split; try assumption; lia.
Qed.

(** The delay follows the records that reach the platform, and only them. *)
Lemma delete_loop_delays total backup_rows idx sc fc s :
  count_events is_delay (trace (delete_loop cfg w total backup_rows idx sc fc s)) =
    length (filter (fun row => has_identifiers row) backup_rows).
Proof.
  revert idx sc fc s.
  induction backup_rows as [|row rest IH]; intros idx sc fc s; [reflexivity|].
  rewrite filter_cons.
  destruct (has_identifiers row) eqn:Hrow.
  - destruct (delete_loop_present total row rest idx sc fc s Hrow)
      as (c & l & b & _ & _ & _ & ->).
    rewrite trace_prepend, !count_events_app, IH.
    rewrite (count_events_none _ _ _ (single_delete_no_delay c l))
      by apply delete_single_lead_obeys.
    cbn [count_events is_delay]. rewrite count_delay_progress_log.
    destruct (decide _) as [|[]]; [reflexivity|exact I].
  - rewrite (delete_loop_missing total row rest idx sc fc s Hrow).
    rewrite trace_prepend. cbn. rewrite IH.
    destruct (decide _) as [[]|]; reflexivity.
Qed.

(** Progress is logged for the record that brings the processed count to a
    multiple of 100, when that record reached the platform. *)
Lemma delete_loop_progress total backup_rows idx sc fc s k tot :
  Logged INFO (MProgress k tot) ∈ trace (delete_loop cfg w total backup_rows idx sc fc s) <->
  tot = total /\ k `mod` 100 = 0 /\
  exists (i : nat) row, backup_rows !! i = Some row /\ has_identifiers row = true /\
                        k = sc + fc + Z.of_nat i + 1.
Proof.
  revert idx sc fc s.
  induction backup_rows as [|row rest IH]; intros idx sc fc s.
  - cbn. split; [intros H; inversion H|]. intros (_ & _ & i & row & H & _). discriminate.
  - destruct (has_identifiers row) eqn:Hrow.
    + destruct (delete_loop_present total row rest idx sc fc s Hrow)
        as (c & l & b & _ & _ & _ & ->).
      rewrite trace_prepend, !elem_of_app, elem_of_cons, IH.
      replace ((if b then sc + 1 else sc) + (if b then fc else fc + 1)) with (sc + fc + 1)
        by (destruct b; lia).
      split.
      * intros [[Hin|[Hbad|Hin]]|(-> & Hk & i & r & Hi & Hr & ->)].
        -- exfalso. destruct (delete_single_lead_obeys c l s) as [_ Hall].
           rewrite Forall_forall in Hall.
           exact (single_delete_no_progress c l _ k tot (Hall _ Hin) eq_refl).
        -- discriminate.
        -- unfold progress_log in Hin.
           destruct ((sc + fc + 1) `mod` 100 =? 0) eqn:E; [|inversion Hin].
           apply list_elem_of_singleton in Hin. injection Hin as -> ->.
           apply Z.eqb_eq in E. repeat split; try assumption.
           exists 0%nat, row. repeat split; [assumption|lia].
        -- repeat split; try assumption.
           exists (S i), r. repeat split; [assumption..|lia].
      * intros (-> & Hk & i & r & Hi & Hr & ->).
        destruct i as [|i]; cbn in Hi.
        -- left. right. right. unfold progress_log.
           replace (sc + fc + Z.of_nat 0 + 1) with (sc + fc + 1) in * by lia.
           apply Z.eqb_eq in Hk. rewrite Hk. apply list_elem_of_singleton. reflexivity.
        -- right. repeat split; try assumption.
           exists i, r. repeat split; [assumption..|lia].
    + rewrite (delete_loop_missing total row rest idx sc fc s Hrow).
      rewrite trace_prepend, elem_of_app, list_elem_of_singleton, IH.
      split.
      * intros [Hbad|(-> & Hk & i & r & Hi & Hr & ->)]; [discriminate|].
        repeat split; try assumption.
        exists (S i), r. repeat split; [assumption..|lia].
      * intros (-> & Hk & i & r & Hi & Hr & ->).
        destruct i as [|i]; cbn in Hi; [congruence|].
        right. repeat split; try assumption.
        exists i, r. repeat split; [assumption..|lia].
Qed.

End Deletion.

Section DeleteLeads.

Context (cfg : Config) (w : World).

Lemma delete_leads_run backup_df s :
  df_empty backup_df = false ->
  exists sc fc,
    value (delete_loop cfg w (df_len backup_df) (rows backup_df) 0 0 0 s) = Ok (sc, fc) /\
    sc + fc = df_len backup_df /\
    delete_leads cfg w backup_df s =
      prepend (Logged INFO (MStartDeletion (df_len backup_df))
               :: trace (delete_loop cfg w (df_len backup_df) (rows backup_df) 0 0 0 s))
        (mkOut (Ok tt)
           (set_stats
              (<["leads_deleted_failed":=fc]>
                 (<["leads_deleted_success":=sc]>
                    (execution_stats
                       (final (delete_loop cfg w (df_len backup_df) (rows backup_df) 0 0 0 s)))))
              (final (delete_loop cfg w (df_len backup_df) (rows backup_df) 0 0 0 s)))
           [Logged INFO (MDeletionCompleted sc fc)]).
Proof.
  intros Hne.
  destruct (delete_loop_counts cfg w (df_len backup_df) (rows backup_df) 0 0 0 s)
    as (sc & fc & Hv & Hsum & _ & _).
  exists sc, fc. split; [assumption|]. split; [unfold df_len; lia|].
  unfold delete_leads. rewrite Hne. run. rewrite run_bind, Hv. run. reflexivity.
Qed.

(** The two counters add up to the number of records of the backup. *)
Lemma delete_leads_counts backup_df s :
  df_empty backup_df = false ->
  value (delete_leads cfg w backup_df s) = Ok tt /\
  stat (final (delete_leads cfg w backup_df s)) "leads_deleted_success"
  + stat (final (delete_leads cfg w backup_df s)) "leads_deleted_failed"
  = df_len backup_df.
Proof.
  intros Hne. destruct (delete_leads_run backup_df s Hne) as (sc & fc & _ & Hsum & ->).
  split; [reflexivity|]. cbn. unfold stat. cbn.
  rewrite lookup_insert_ne by discriminate.
  rewrite !lookup_insert_eq. cbn. exact Hsum.
Qed.

End DeleteLeads.

(** C1 (failing input).  On a platform that answers DELETE with status 404
    ("not found"), a backup of one well-formed record ends with no success
    and one failure: [raise_for_status] turns each 404 into an error, the five
    attempts are used up and [send_request] returns [None]. *)
Theorem delete_not_found_counts_as_failure :
  let o := delete_leads script_config not_found_world one_lead_backup empty_state in
  value o = Ok tt /\
  stat (final o) "leads_deleted_success" = 0 /\
  stat (final o) "leads_deleted_failed" = 1 /\
  count_events is_delete_attempt (trace o) = 5%nat /\
  Logged ERROR (MDeleteFailed (CInt 42) (CInt 7)) ∈ trace o.
Proof.
  cbv zeta. repeat split; try (vm_compute; reflexivity).
  apply list_elem_of_In. vm_compute. tauto.
Qed.

(** C9 (counterexample).  A backup of one record without lead identifier is
    processed without any delay: the [continue] of the validation branch
    skips [time.sleep(0.5)].  And in a backup of 100 records whose last one
    lacks its identifier, the processed count reaches 100 with no progress
    line at all. *)
Lemma no_delay_after_missing_identifier :
  (let o := delete_leads script_config not_found_world backup_without_id empty_state in
   length (rows backup_without_id) = 1%nat /\
   stat (final o) "leads_deleted_failed" = 1 /\
   count_events is_delay (trace o) = 0%nat) /\
  (let o := delete_leads script_config healthy_world hundred_records empty_state in
   length (rows hundred_records) = 100%nat /\
   stat (final o) "leads_deleted_success" + stat (final o) "leads_deleted_failed" = 100 /\
   count_events is_delay (trace o) = 99%nat /\
   count_events is_progress (trace o) = 0%nat).
Proof. cbv zeta. repeat split; vm_compute; reflexivity. Qed.

Section DelayOrder.

Context (cfg : Config) (w : World).

(** The first event of a delete call is its first attempt. *)
Lemma delete_single_lead_first_event c l s :
  (0 < MAX_RETRIES cfg)%nat ->
  exists rest, trace (delete_single_lead cfg w c l s) = Http (DeleteLead c l) :: rest.
Proof.
  intros Hmax. unfold delete_single_lead, send_request.
  destruct (MAX_RETRIES cfg) as [|n]; [lia|].
  cbn [seq send_request_from]. rewrite bind_assoc, http_request_bind, trace_prepend.
  eexists. reflexivity.
Qed.

(** The trace of the loop is the sequence of the segments of its records. *)
Lemma delete_loop_segments total backup_rows : forall idx sc fc s,
  Z.of_nat idx = sc + fc ->
  exists segments,
    trace (delete_loop cfg w total backup_rows idx sc fc s) = concat segments /\
    record_segments cfg total idx backup_rows segments.
Proof.
  induction backup_rows as [|row rest IH]; intros idx sc fc s Hidx.
  - exists []. split; [reflexivity|exact I].
  - destruct (has_identifiers row) eqn:Hrow.
    + destruct (delete_loop_present cfg w total row rest idx sc fc s Hrow)
        as (c & l & b & Hc & Hl & _ & Heq).
      destruct (IH (S idx) (if b then sc + 1 else sc) (if b then fc else fc + 1)
                  (final (delete_single_lead cfg w c l s))) as (segments & Htrace & Hsegs).
      { destruct b; lia. }
      exists ((trace (delete_single_lead cfg w c l s)
               ++ Slept 500 :: progress_log total (Z.of_nat idx)) :: segments).
      split.
      * rewrite Heq, trace_prepend, Htrace, Hidx. reflexivity.
      * cbn [record_segments]. split; [|exact Hsegs].
        unfold record_segment. rewrite Hrow.
        exists c, l, (trace (delete_single_lead cfg w c l s)).
        repeat split; try assumption.
        -- apply delete_single_lead_obeys.
        -- apply delete_single_lead_first_event.
    + destruct (IH (S idx) sc (fc + 1) s) as (segments & Htrace & Hsegs); [lia|].
      exists ([Logged ERROR (MMissingId idx)] :: segments). split.
      * rewrite (delete_loop_missing cfg w total row rest idx sc fc s Hrow).
        rewrite trace_prepend, Htrace. reflexivity.
      * cbn [record_segments]. split; [|exact Hsegs].
        unfold record_segment. rewrite Hrow. split; [apply list_elem_of_here|].
        repeat constructor.
Qed.

End DelayOrder.

(** C9 (amended).  The trace of [delete_leads] is, between its first and its
    last log line, one segment per record of the backup, in order.  The
    segment of a record for which a delete call is issued is the events of
    that call, then the fixed delay, then the progress line when the
    processed count is a multiple of 100: the delay comes once, after the
    call.  The segment of a record that fails validation holds its error
    line, no delay and no request. *)
Theorem delete_leads_delay_follows_call cfg w backup_df s :
  df_empty backup_df = false ->
  exists segments sc fc,
    trace (delete_leads cfg w backup_df s) =
      Logged INFO (MStartDeletion (df_len backup_df))
      :: concat segments ++ [Logged INFO (MDeletionCompleted sc fc)] /\
    record_segments cfg (df_len backup_df) 0 (rows backup_df) segments.
Proof.
  intros Hne.
  destruct (delete_leads_run cfg w backup_df s Hne) as (sc & fc & _ & _ & ->).
  destruct (delete_loop_segments cfg w (df_len backup_df) (rows backup_df) 0 0 0 s eq_refl)
    as (segments & Htrace & Hsegs).
  exists segments, sc, fc. split; [|exact Hsegs].
  rewrite trace_prepend, Htrace. reflexivity.
Qed.

Lemma delete_leads_delay_follows_call_witness :
  exists segments sc fc,
    trace (delete_leads script_config healthy_world one_lead_backup empty_state) =
      Logged INFO (MStartDeletion (df_len one_lead_backup))
      :: concat segments ++ [Logged INFO (MDeletionCompleted sc fc)] /\
    record_segments script_config (df_len one_lead_backup) 0 (rows one_lead_backup) segments.
Proof.
  exact (delete_leads_delay_follows_call script_config healthy_world one_lead_backup
           empty_state eq_refl).
Defined.

Lemma filter_present_idem s (l : list Path) :
  filter (present s) (filter (present s) l) = filter (present s) l.
Proof.
  induction l as [|p l IH]; [reflexivity|].
  rewrite filter_cons. destruct (decide (present s p)) as [Hp|Hp]; [|exact IH].
  rewrite filter_cons. destruct (decide (present s p)); [|contradiction].
  rewrite IH. reflexivity.
Qed.


(** A run of [send_email] with a path that is no file: the e-mail is sent
    with the log file alone, and the recipients are the characters of
    [RECIPIENT_EMAILS]. *)
Example send_email_skips_missing_file :
  let s := mkState 0 [(LogFile 0, FLog)] ∅ [] in
  let o := send_email script_config healthy_world DeletionComplete (OtherBody "done")
             [LogFile 0; BackupCsv 1] s in
  value o = Ok true /\
  trace o = [Logged WARNING (MAttachmentNotFound (BackupCsv 1));
             Smtp DeletionComplete [LogFile 0]; Logged INFO MEmailSent] /\
  recipients_header "ab c" = "a, b, c".
Proof. cbv zeta. repeat split; vm_compute; reflexivity. Qed.

(** ** The lead analyzer *)

Lemma analyze_campaign_leads_run csv_file df s :
  read_file (files s) csv_file = Some (FLeads (Some df)) ->
  "reply_count" ∈ columns df ->
  let no_reply := filter (fun r => reply_count_is_zero r) (rows df) in
  analyze_campaign_leads csv_file s =
    mkOut (Ok (mkDataFrame (columns df) no_reply, df_len df, Z.of_nat (length no_reply))) s
      [Logged INFO (MAnalysis (df_len df) (Z.of_nat (length no_reply)))].
Proof.
  intros Hfile Hcol no_reply. unfold analyze_campaign_leads.
  rewrite run_try_except. unfold read_leads_csv, no_reply_rows.
  run. rewrite Hfile. run. rewrite bool_decide_eq_true_2 by assumption.
  run. reflexivity.
Qed.

Lemma analyze_campaign_leads_total csv_file : total (analyze_campaign_leads csv_file).
Proof. unfold analyze_campaign_leads. repeat structural. Qed.

Lemma analyze_campaign_leads_obeys R `{!Reflexive R, !Transitive R} (P : Event -> Prop) csv_file :
  (forall a b, P (Logged INFO (MAnalysis a b))) -> P (Logged ERROR (MAnalysisError csv_file)) ->
  obeys R P (analyze_campaign_leads csv_file).
Proof.
  intros H1 H2. unfold analyze_campaign_leads, read_leads_csv, no_reply_rows.
  repeat structural; auto.
Qed.

(** C7 (counterexample).  A lead whose reply count is missing is counted in
    the total and left out of the non-responding subset. *)
Lemma missing_reply_count_is_not_non_responding :
  let df := mkDataFrame ["id"; "reply_count"] [lead_without_reply_count] in
  pd_isna (lead_without_reply_count !! "reply_count") = true /\
  value (analyze_campaign_leads (ExportCsv (CInt 7)) (state_with_leads df))
    = Ok (mkDataFrame ["id"; "reply_count"] [], 1, 0).
Proof. cbv zeta. split; vm_compute; reflexivity. Qed.

(** C7 (amended).  On an export that has a reply-count column, a lead is in
    the non-responding subset iff its reply count is there and equal to zero;
    a lead whose reply count is positive or missing is outside it.  The subset
    keeps the order of the export, the total is the number of leads and the
    non-responding count is the size of the subset. *)
Theorem analyze_campaign_leads_partition csv_file df s :
  read_file (files s) csv_file = Some (FLeads (Some df)) ->
  "reply_count" ∈ columns df ->
  exists no_reply_leads,
    value (analyze_campaign_leads csv_file s)
      = Ok (no_reply_leads, df_len df, df_len no_reply_leads) /\
    rows no_reply_leads = filter (fun r => reply_count_is_zero r) (rows df) /\
    (forall row, row ∈ rows no_reply_leads <->
                 row ∈ rows df /\ row !! "reply_count" = Some (CInt 0)) /\
    (forall row n, row !! "reply_count" = Some (CInt n) -> n > 0 ->
                   row ∉ rows no_reply_leads) /\
    (forall row, pd_isna (row !! "reply_count") = true -> row ∉ rows no_reply_leads).
Proof.
  intros Hfile Hcol.
  exists (mkDataFrame (columns df) (filter (fun r => reply_count_is_zero r) (rows df))).
  rewrite (analyze_campaign_leads_run csv_file df s Hfile Hcol). cbn [value rows].
  assert (Hmem : forall row,
    row ∈ filter (fun r => reply_count_is_zero r) (rows df) <->
    row ∈ rows df /\ row !! "reply_count" = Some (CInt 0)).
  { intros row. rewrite list_elem_of_filter. unfold reply_count_is_zero.
    rewrite bool_decide_spec. tauto. }
  split; [reflexivity|]. split; [reflexivity|]. split; [exact Hmem|]. split.
  - intros row n Hn Hpos [_ H0]%Hmem. rewrite Hn in H0. injection H0 as ->. lia.
  - intros row Hna [_ H0]%Hmem. rewrite H0 in Hna. discriminate.
Qed.

Lemma analyze_campaign_leads_partition_witness :
  exists no_reply_leads,
    value (analyze_campaign_leads (ExportCsv (CInt 7)) (state_with_leads three_leads))
      = Ok (no_reply_leads, 3, df_len no_reply_leads).
Proof.
  destruct (analyze_campaign_leads_partition (ExportCsv (CInt 7)) three_leads
              (state_with_leads three_leads) eq_refl) as (no_reply & Hv & _).
  - apply list_elem_of_In. vm_compute. tauto.
  - exists no_reply. exact Hv.
Defined.

(** ** Files and frames *)

Lemma read_file_remove_ne (fs : Files) p q :
  p <> q -> read_file (remove_file fs q) p = read_file fs p.
Proof.
  intros Hpq. induction fs as [|[r f] fs IH]; [reflexivity|].
  unfold remove_file. rewrite filter_cons. cbn [fst].
  destruct (decide (r ≠ q)) as [Hr|Hr]; cbn [read_file].
  - destruct (decide (r = p)); [reflexivity|]. apply IH.
  - destruct (decide (r = p)) as [->|]; [|apply IH].
    exfalso. apply Hr. congruence.
Qed.

Lemma extends_set_tick n s : extends s (set_tick n s).
Proof. split; [reflexivity|]. intros; reflexivity. Qed.

Lemma extends_set_stats st s : extends s (set_stats st s).
Proof. split; [reflexivity|]. intros; reflexivity. Qed.

Lemma extends_write_export c f s : extends s (set_files ((ExportCsv c, f) :: files s) s).
Proof.
  split; [reflexivity|]. intros p Hp. cbn.
  destruct (decide (ExportCsv c = p)) as [<-|]; [|reflexivity].
  exfalso. exact (Hp c eq_refl).
Qed.

Lemma extends_remove_export c s : extends s (set_files (remove_file (files s) (ExportCsv c)) s).
Proof.
  split; [reflexivity|]. intros p Hp. cbn. apply read_file_remove_ne. apply Hp.
Qed.

Lemma obeys_write_file R `{!Reflexive R, !Transitive R} (P : Event -> Prop) p f :
  (forall s, R s (set_files ((p, f) :: files s) s)) -> P (Wrote p f) ->
  obeys R P (write_file p f).
Proof. intros HR HP. unfold write_file. repeat structural; auto. Qed.

Lemma obeys_delete_file R `{!Reflexive R, !Transitive R} (P : Event -> Prop) p :
  (forall s, R s (set_files (remove_file (files s) p) s)) -> P (Removed p) ->
  obeys R P (delete_file p).
Proof. intros HR HP. unfold delete_file. repeat structural; auto. Qed.

Lemma total_write_file p f : total (write_file p f).
Proof. unfold write_file. repeat structural. Qed.

Lemma total_delete_file p : total (delete_file p).
Proof. unfold delete_file. repeat structural. Qed.

Lemma total_isfile p : total (isfile p).
Proof. unfold isfile. repeat structural. Qed.

Lemma total_now w : total (now w).
Proof. intros s. eexists. reflexivity. Qed.

(** What a computation that returns and obeys gives at a state. *)
Lemma run_total {A} R P (m : M A) s :
  total m -> obeys R P m ->
  exists a s' t, m s = mkOut (Ok a) s' t /\ R s s' /\ Forall P t.
Proof.
  intros Ht Ho. destruct (Ht s) as [a Ha]. destruct (Ho s) as [Hr Hp].
  exists a, (final (m s)), (trace (m s)). split; [|split; assumption].
  rewrite <- Ha. apply out_eta.
Qed.

Lemma request_event_background r e :
  (forall c l, r <> DeleteLead c l) -> request_event r e -> background e.
Proof.
  intros Hr. destruct e as [[] []|r'| | | | | |]; cbn; try tauto.
  intros ->. destruct r; try exact I. exfalso. exact (Hr _ _ eq_refl).
Qed.

Section LeadsExport.

Context (cfg : Config) (w : World).

Lemma send_request_background r :
  (forall c l, r <> DeleteLead c l) ->
  obeys extends background (send_request cfg w r).
Proof.
  intros Hr. eapply obeys_weaken; [| |apply send_request_from_obeys].
  - apply ticked_extends.
  - intros e. apply request_event_background. exact Hr.
Qed.

Lemma export_leads_csv_obeys campaign_id :
  obeys extends background (export_leads_csv cfg w campaign_id).
Proof.
  unfold export_leads_csv. structural; [structural|].
  structural.
  - structural; [|structural].
    structural; [|structural; exact I].
    apply obeys_delete_file; [exact _..|intros; apply extends_remove_export|exact I].
  - structural; [apply send_request_background; discriminate|].
    repeat structural; try exact I.
    apply obeys_write_file; [exact _..|intros; apply extends_write_export|exact I].
Qed.

Lemma export_leads_csv_total campaign_id : total (export_leads_csv cfg w campaign_id).
Proof.
  unfold export_leads_csv. structural; [apply total_isfile|].
  structural.
  - structural; [|structural]. structural; [apply total_delete_file|structural].
  - structural; [apply send_request_from_total|].
    repeat structural. apply total_write_file.
Qed.

Lemma analyze_campaign_leads_background csv_file :
  obeys eq background (analyze_campaign_leads csv_file).
Proof. apply analyze_campaign_leads_obeys; [exact _..|intros; exact I|exact I]. Qed.

End LeadsExport.

(** ** The campaign filter *)

#[local] Instance anyhow_refl : Reflexive anyhow.
Proof. intros s. exact I. Qed.

#[local] Instance anyhow_trans : Transitive anyhow.
Proof. intros a b c _ _. exact I. Qed.

Lemma obeys_anyhow {A} R P (m : M A) : obeys R P m -> obeys anyhow P m.
Proof. apply obeys_weaken; [intros; exact I|auto]. Qed.

Section Filter.

Context (cfg : Config) (w : World).

Lemma lead_counts_obeys include campaign :
  obeys extends background (lead_counts cfg w include campaign).
Proof.
  unfold lead_counts. destruct include; [|structural].
  structural; [apply export_leads_csv_obeys|].
  structural; [|structural].
  structural; [|repeat structural].
  eapply obeys_weaken; [| |apply analyze_campaign_leads_background]; [|auto].
  intros s s' ->. reflexivity.
Qed.

Lemma lead_counts_total include campaign : total (lead_counts cfg w include campaign).
Proof.
  unfold lead_counts. destruct include; [|structural].
  structural; [apply export_leads_csv_total|].
  structural; [|structural].
  structural; [apply analyze_campaign_leads_total|repeat structural].
Qed.

Lemma lead_counts_excluded campaign s :
  lead_counts cfg w false campaign s = mkOut (Ok (0, 0)) s [].
Proof. reflexivity. Qed.

(** A campaign whose timestamps do not parse is logged; it gets no row. *)
Lemma filter_one_skipped campaigns_csv cutoff_date filtered campaign s :
  parses campaign = false ->
  filter_one cfg w campaigns_csv cutoff_date filtered campaign s =
    mkOut (Ok filtered) s [Logged ERROR (MCampaignError (id campaign))].
Proof.
  unfold parses, filter_one, strptime. intros Hp. rewrite run_try_except.
  destruct (created_at campaign), (updated_at campaign); try discriminate; run; reflexivity.
Qed.

(** A campaign whose timestamps parse gets its row, whatever its export
    does. *)
Lemma filter_one_processed stamp cutoff_date filtered campaign created updated written s :
  created_at campaign = Some created ->
  updated_at campaign = Some updated ->
  read_file (files s) (CampaignsCsv stamp) = Some (FReport written) ->
  exists s' t row,
    filter_one cfg w (CampaignsCsv stamp) cutoff_date filtered campaign s =
      mkOut (Ok (if include_campaign cfg cutoff_date campaign created
                 then filtered ++ [campaign] else filtered)) s' t /\
    read_file (files s') (CampaignsCsv stamp) = Some (FReport (written ++ [row])) /\
    output_files s' = output_files s /\
    rr_campaign_id row = id campaign /\
    rr_included row = include_campaign cfg cutoff_date campaign created /\
    (rr_included row = false -> rr_total_leads row = 0 /\ rr_no_reply_leads row = 0) /\
    Forall background t.
Proof.
  intros Hc Hu Hfile.
  set (include := include_campaign cfg cutoff_date campaign created).
  destruct (run_total extends background (lead_counts cfg w include campaign)
              (set_tick (S (tick s)) s)
              (lead_counts_total _ _) (lead_counts_obeys _ _))
    as (counts & s2 & t2 & Hrun & [Hout Hfiles] & Ht2).
  assert (Hcounts : include = false -> counts = (0, 0)).
  { intros Hi. rewrite Hi, lead_counts_excluded in Hrun. congruence. }
  eexists _, _, _.
  split; [|split; [|split; [|split; [|split; [|split]]]]].
  - unfold filter_one, strptime. rewrite run_try_except, Hc, Hu. run.
    fold include. rewrite (run_bind_out _ _ _ _ _ _ Hrun).
    unfold writerow. run.
    rewrite Hfiles by discriminate. cbn [files set_tick]. rewrite Hfile. run.
    reflexivity.
  - cbn. destruct (decide _) as [_|[]]; reflexivity.
  - cbn. exact Hout.
  - reflexivity.
  - reflexivity.
  - cbn. fold include. intros Hi. rewrite (Hcounts Hi). split; reflexivity.
  - apply Forall_app. split; [exact Ht2|]. repeat constructor.
Qed.

Lemma filter_one_obeys stamp cutoff_date filtered campaign :
  obeys anyhow background (filter_one cfg w (CampaignsCsv stamp) cutoff_date filtered campaign).
Proof.
  unfold filter_one, strptime, writerow.
  structural; [|repeat structural; exact I].
  structural; [destruct (created_at campaign); structural|].
  structural; [destruct (updated_at campaign); structural|].
  structural; [apply obeys_now; [exact _..|intros; exact I]|].
  structural; [apply (obeys_anyhow _ _ _ (lead_counts_obeys _ _))|].
  structural; [|structural].
  structural; [structural|].
  repeat structural; apply obeys_write_file; try exact _; try (intros; exact I).
Qed.

Lemma filter_one_total campaigns_csv cutoff_date filtered campaign :
  total (filter_one cfg w campaigns_csv cutoff_date filtered campaign).
Proof. unfold filter_one. repeat structural. Qed.

Lemma eligible_parses cutoff_date campaign :
  eligible cfg cutoff_date campaign = true -> parses campaign = true.
Proof.
  unfold eligible, parses.
  destruct (created_at campaign), (updated_at campaign); auto.
Qed.

(** The loop: the campaigns whose decision is true are returned, the
    campaigns whose timestamps parse get a row each, in the order of the
    input. *)
Lemma filter_loop_run stamp cutoff_date campaigns : forall filtered written s,
  read_file (files s) (CampaignsCsv stamp) = Some (FReport written) ->
  exists s' t new_rows,
    filter_loop cfg w (CampaignsCsv stamp) cutoff_date filtered campaigns s =
      mkOut (Ok (filtered ++ filter (fun c => eligible cfg cutoff_date c) campaigns)) s' t /\
    read_file (files s') (CampaignsCsv stamp) = Some (FReport (written ++ new_rows)) /\
    output_files s' = output_files s /\
    map rr_campaign_id new_rows = map id (filter (fun c => parses c) campaigns) /\
    map rr_included new_rows
      = map (eligible cfg cutoff_date) (filter (fun c => parses c) campaigns) /\
    Forall (fun row => rr_included row = false ->
                       rr_total_leads row = 0 /\ rr_no_reply_leads row = 0) new_rows /\
    Forall background t /\
    (forall c, c ∈ campaigns -> parses c = false ->
               Logged ERROR (MCampaignError (id c)) ∈ t).
Proof.
  induction campaigns as [|campaign rest IH]; intros filtered written s Hfile.
  - exists s, [], []. cbn. rewrite !app_nil_r.
    repeat split; try assumption; try constructor.
    intros c Hc. inversion Hc.
  - cbn [filter_loop]. rewrite !filter_cons. cbn beta.
    destruct (parses campaign) eqn:Hp.
    + unfold parses in Hp.
      destruct (created_at campaign) as [created|] eqn:Hc; [|discriminate].
      destruct (updated_at campaign) as [updated|] eqn:Hu; [|discriminate].
      destruct (filter_one_processed stamp cutoff_date filtered campaign created updated
                  written s Hc Hu Hfile)
        as (s1 & t1 & row & Hrun & Hfile1 & Hout1 & Hid & Hinc & Hzero & Ht1).
      destruct (IH (if include_campaign cfg cutoff_date campaign created
                    then filtered ++ [campaign] else filtered) (written ++ [row]) s1 Hfile1)
        as (s2 & t2 & new_rows & Hrun2 & Hfile2 & Hout2 & Hids & Hincs & Hzeros & Ht2 & Hlog).
      exists s2, (t1 ++ t2), (row :: new_rows).
      assert (He : eligible cfg cutoff_date campaign
                   = include_campaign cfg cutoff_date campaign created).
      { unfold eligible. rewrite Hc, Hu. reflexivity. }
      split; [|split; [|split; [|split; [|split; [|split; [|split]]]]]].
      * rewrite (run_bind_out _ _ _ _ _ _ Hrun), Hrun2. run. rewrite He.
        destruct (include_campaign cfg cutoff_date campaign created); cbn.
        -- rewrite <- app_assoc. reflexivity.
        -- reflexivity.
      * rewrite Hfile2, <- app_assoc. reflexivity.
      * congruence.
      * cbn. rewrite Hid, Hids. reflexivity.
      * destruct (decide _) as [_|[]]; [|exact I].
        cbn -[eligible]. rewrite Hinc, Hincs, He. reflexivity.
      * constructor; assumption.
      * apply Forall_app. split; assumption.
      * intros c [->|Hin]%elem_of_cons Hnp.
        -- unfold parses in Hnp. rewrite Hc, Hu in Hnp. discriminate.
        -- apply elem_of_app. right. apply Hlog; assumption.
    + rewrite (run_bind_out _ _ _ _ _ _
                 (filter_one_skipped (CampaignsCsv stamp) cutoff_date filtered campaign s Hp)).
      destruct (IH filtered written s Hfile)
        as (s2 & t2 & new_rows & Hrun2 & Hfile2 & Hout2 & Hids & Hincs & Hzeros & Ht2 & Hlog).
      exists s2, (Logged ERROR (MCampaignError (id campaign)) :: t2), new_rows.
      assert (He : eligible cfg cutoff_date campaign = false).
      { destruct (eligible cfg cutoff_date campaign) eqn:E; [|reflexivity].
        apply eligible_parses in E. congruence. }
      rewrite He. cbn [decide Is_true_dec Is_true].
      split; [|split; [|split; [|split; [|split; [|split; [|split]]]]]]; try assumption.
      * rewrite Hrun2. run. reflexivity.
      * constructor; [exact I|assumption].
      * intros c [->|Hin]%elem_of_cons Hnp.
        -- apply list_elem_of_here.
        -- apply list_elem_of_further. apply Hlog; assumption.
Qed.

Lemma filter_loop_obeys stamp cutoff_date campaigns : forall filtered,
  obeys anyhow background (filter_loop cfg w (CampaignsCsv stamp) cutoff_date filtered campaigns).
Proof.
  induction campaigns as [|campaign rest IH]; intros filtered; cbn [filter_loop].
  - structural.
  - structural; [apply filter_one_obeys|apply IH].
Qed.

(** The whole stage, from the state it starts in. *)
Lemma filter_and_analyze_campaigns_run campaigns s :
  let cutoff_date := clock w (tick s) - DAYS_WITHOUT_ACTIVITY cfg * 86400 in
  let campaigns_csv := CampaignsCsv (clock w (S (tick s))) in
  exists s' t report,
    filter_and_analyze_campaigns cfg w campaigns s =
      mkOut (Ok (filter (fun c => eligible cfg cutoff_date c) campaigns)) s' t /\
    read_file (files s') campaigns_csv = Some (FReport report) /\
    output_files s' = output_files s ++ [campaigns_csv] /\
    map rr_campaign_id report = map id (filter (fun c => parses c) campaigns) /\
    map rr_included report
      = map (eligible cfg cutoff_date) (filter (fun c => parses c) campaigns) /\
    Forall (fun row => rr_included row = false ->
                       rr_total_leads row = 0 /\ rr_no_reply_leads row = 0) report /\
    Forall background t /\
    (forall c, c ∈ campaigns -> parses c = false ->
               Logged ERROR (MCampaignError (id c)) ∈ t).
Proof.
  intros cutoff_date campaigns_csv.
  set (s1 := set_files ((campaigns_csv, FReport []) :: files (set_tick (S (S (tick s))) s))
               (set_output_files (output_files s ++ [campaigns_csv])
                  (set_tick (S (S (tick s))) s))).
  destruct (filter_loop_run (clock w (S (tick s))) cutoff_date campaigns [] [] s1)
    as (s2 & t2 & report & Hrun & Hfile & Hout & Hids & Hincs & Hzeros & Ht2 & Hlog).
  { cbn. destruct (decide _) as [_|[]]; reflexivity. }
  eexists _, _, report.
  split; [|split; [|split; [|split; [|split; [|split; [|split]]]]]].
  - unfold filter_and_analyze_campaigns. run.
    change (set_files _ _) with s1. fold campaigns_csv cutoff_date.
    rewrite (run_bind_out _ _ _ _ _ _ Hrun). run. reflexivity.
  - cbn. exact Hfile.
  - cbn. exact Hout.
  - exact Hids.
  - exact Hincs.
  - exact Hzeros.
  - cbn. constructor; [exact I|]. constructor; [exact I|].
    apply Forall_app. split; [exact Ht2|]. repeat constructor.
  - intros c Hc Hnp. cbn. do 2 apply list_elem_of_further. apply elem_of_app. left.
    apply Hlog; assumption.
Qed.

End Filter.

(** ** More on the remote client *)

Section RemoteMore.

Context (cfg : Config) (w : World).

Lemma count_attempts_request_event r t :
  Forall (request_event r) t -> forall e, e ∈ t -> is_attempt e = true -> e = Http r.
Proof.
  intros Hall e He. rewrite Forall_forall in Hall. specialize (Hall e He).
  destruct e; cbn; try discriminate. cbn in Hall. intros _. congruence.
Qed.

Lemma send_request_from_attempts attempts r s :
  (count_events is_attempt (trace (send_request_from cfg w attempts r s)) <= length attempts)%nat.
Proof.
  revert s. induction attempts as [|attempt later IH]; intros s; cbn [send_request_from].
  - cbn. lia.
  - run. destruct (remote w (tick s) r) as [|resp].
    + run. cbn. specialize (IH (set_tick (S (tick s)) s)). lia.
    + destruct (raises_for_status resp); run; cbn.
      * specialize (IH (set_tick (S (tick s)) s)). lia.
      * lia.
Qed.

Lemma send_request_from_exhausted_run attempts r : forall s,
  (forall n, match remote w n r with
             | Unreachable => True
             | Responded resp => raises_for_status resp = true
             end) ->
  send_request_from cfg w attempts r s =
    mkOut (Ok None) (set_tick (tick s + length attempts) s)
      (concat (map (failed_attempt cfg r) attempts)).
Proof.
  intros s Hfail. revert s.
  induction attempts as [|attempt later IH]; intros s; cbn [send_request_from].
  - cbn. replace (tick s + 0)%nat with (tick s) by lia. destruct s; reflexivity.
  - run. specialize (Hfail (tick s)) as Hnow.
    assert (Hstate : set_tick (tick (set_tick (S (tick s)) s) + length later)
                       (set_tick (S (tick s)) s)
                     = set_tick (tick s + length (attempt :: later)) s).
    { unfold set_tick; cbn. f_equal. lia. }
    destruct (remote w (tick s) r) as [|resp].
    + run. rewrite IH, Hstate. run. reflexivity.
    + rewrite Hnow. run. rewrite IH, Hstate. run. reflexivity.
Qed.

End RemoteMore.

(** X1.  [send_request] never raises and makes at most [MAX_RETRIES]
    attempts; what it returns is [None] or a response that passed
    [raise_for_status] (its status is outside 400..599); it leaves files,
    statistics and output files as they were. *)
Theorem send_request_returns cfg w r s :
  let o := send_request cfg w r s in
  exists result,
    value o = Ok result /\
    (forall resp, result = Some resp -> status_code resp < 400 \/ 600 <= status_code resp) /\
    (count_events is_attempt (trace o) <= MAX_RETRIES cfg)%nat /\
    files (final o) = files s /\
    execution_stats (final o) = execution_stats s /\
    output_files (final o) = output_files s.
Proof.
  cbv zeta. unfold send_request.
  destruct (send_request_from_total cfg w (seq 1 (MAX_RETRIES cfg)) r s) as [result Hv].
  exists result. split; [exact Hv|]. split; [|split].
  - intros resp ->. apply send_request_from_ok in Hv.
    unfold raises_for_status in Hv. apply andb_false_iff in Hv. lia.
  - etransitivity; [apply send_request_from_attempts|]. rewrite length_seq. lia.
  - destruct (send_request_from_obeys cfg w (seq 1 (MAX_RETRIES cfg)) r s) as [[n ->] _].
    repeat split.
Qed.

(** X2.  When every attempt fails (no answer, or a 4xx/5xx status),
    [send_request] gives up with [None] after exactly [MAX_RETRIES] attempts;
    each failed attempt, the last one included, is logged and followed by a
    sleep of [BACKOFF_FACTOR ** attempt] seconds. *)
Theorem send_request_gives_up cfg w r s :
  (forall n, match remote w n r with
             | Unreachable => True
             | Responded resp => 400 <= status_code resp < 600
             end) ->
  send_request cfg w r s =
    mkOut (Ok None) (set_tick (tick s + MAX_RETRIES cfg) s)
      (concat (map (failed_attempt cfg r) (seq 1 (MAX_RETRIES cfg)))).
Proof.
  intros Hfail. unfold send_request.
  rewrite send_request_from_exhausted_run.
  - rewrite length_seq. reflexivity.
  - intros n. specialize (Hfail n). destruct (remote w n r) as [|resp]; [exact I|].
    unfold raises_for_status. apply andb_true_iff. lia.
Qed.

Lemma send_request_gives_up_witness :
  trace (send_request script_config not_found_world (DeleteLead (CInt 7) (CInt 42)) empty_state)
  = concat (map (failed_attempt script_config (DeleteLead (CInt 7) (CInt 42))) [1; 2; 3; 4; 5]%nat).
Proof.
  rewrite (send_request_gives_up script_config not_found_world
             (DeleteLead (CInt 7) (CInt 42)) empty_state).
  - reflexivity.
  - intros n. cbn. lia.
Defined.

(** X3.  When the first attempt is answered with a status outside 400..599,
    [send_request] returns that response after one attempt, without a log
    line or a sleep. *)
Theorem send_request_first_attempt cfg w r s resp :
  (0 < MAX_RETRIES cfg)%nat ->
  remote w (tick s) r = Responded resp ->
  status_code resp < 400 \/ 600 <= status_code resp ->
  send_request cfg w r s = mkOut (Ok (Some resp)) (set_tick (S (tick s)) s) [Http r].
Proof.
  intros Hmax Hresp Hstatus. unfold send_request.
  destruct (MAX_RETRIES cfg) as [|n]; [lia|].
  cbn [seq send_request_from]. run. rewrite Hresp.
  replace (raises_for_status resp) with false; [run; reflexivity|].
  symmetry. unfold raises_for_status. apply andb_false_iff. lia.
Qed.

Lemma send_request_first_attempt_witness :
  value (send_request script_config healthy_world (DeleteLead (CInt 7) (CInt 42)) empty_state)
  = Ok (Some (mkResponse 200 false None None)).
Proof.
  rewrite (send_request_first_attempt script_config healthy_world
             (DeleteLead (CInt 7) (CInt 42)) empty_state (mkResponse 200 false None None)).
  - reflexivity.
  - cbn. lia.
  - reflexivity.
  - cbn. lia.
Defined.

(** ** More on the deletion executor *)

Section DeletionMore.

Context (cfg : Config) (w : World).

(** The requests of the loop are for rows that have both identifiers. *)
Lemma delete_loop_requests total backup_rows : forall idx sc fc s c l,
  Http (DeleteLead c l) ∈ trace (delete_loop cfg w total backup_rows idx sc fc s) ->
  exists row, row ∈ backup_rows /\ has_identifiers row = true /\
              row !! "Campaign ID" = Some c /\ row !! "id" = Some l.
Proof.
  induction backup_rows as [|row rest IH]; intros idx sc fc s c l Hin.
  - cbn in Hin. inversion Hin.
  - destruct (has_identifiers row) eqn:Hrow.
    + destruct (delete_loop_present cfg w total row rest idx sc fc s Hrow)
        as (c' & l' & b & Hc & Hl & _ & Heq).
      rewrite Heq, trace_prepend in Hin.
      rewrite !elem_of_app, elem_of_cons in Hin.
      destruct Hin as [[Hin|[Hbad|Hin]]|Hin].
      * destruct (delete_single_lead_obeys cfg w c' l' s) as [_ Hall].
        rewrite Forall_forall in Hall. specialize (Hall _ Hin). cbn in Hall.
        injection Hall as -> ->.
        exists row. repeat split; try assumption. apply list_elem_of_here.
      * discriminate.
      * unfold progress_log in Hin. destruct (_ =? _); [|inversion Hin].
        apply list_elem_of_singleton in Hin. discriminate.
      * destruct (IH _ _ _ _ _ _ Hin) as (r & Hr & ?).
        exists r. split; [apply list_elem_of_further; exact Hr|assumption].
    + rewrite (delete_loop_missing cfg w total row rest idx sc fc s Hrow) in Hin.
      rewrite trace_prepend, elem_of_app, list_elem_of_singleton in Hin.
      destruct Hin as [Hbad|Hin]; [discriminate|].
      destruct (IH _ _ _ _ _ _ Hin) as (r & Hr & ?).
      exists r. split; [apply list_elem_of_further; exact Hr|assumption].
Qed.

(** Every row without identifier ends in the failure counter. *)
Lemma delete_loop_failed total backup_rows : forall idx sc fc s sc' fc',
  value (delete_loop cfg w total backup_rows idx sc fc s) = Ok (sc', fc') ->
  fc + Z.of_nat (length (filter (fun row => ¬ has_identifiers row) backup_rows)) <= fc'.
Proof.
  induction backup_rows as [|row rest IH]; intros idx sc fc s sc' fc' Hv.
  - cbn in Hv. injection Hv as <- <-. cbn. lia.
  - rewrite filter_cons. destruct (has_identifiers row) eqn:Hrow.
    + destruct (delete_loop_present cfg w total row rest idx sc fc s Hrow)
        as (c & l & b & _ & _ & _ & Heq).
      rewrite Heq, value_prepend in Hv. apply IH in Hv.
      destruct (decide _) as [Hn|_]; [exfalso; apply Hn; exact I|].
      destruct b; lia.
    + rewrite (delete_loop_missing cfg w total row rest idx sc fc s Hrow), value_prepend in Hv.
      apply IH in Hv.
      destruct (decide _) as [_|Hn]; [cbn [length]; lia|].
      exfalso. apply Hn. intros [].
Qed.

End DeletionMore.

(** X4.  A lead counts as deleted exactly when [send_request] handed over a
    response of status 200.  The "already deleted" branch for status 404 is
    never taken: its warning is logged in no run. *)
Theorem delete_single_lead_success cfg w campaign_id lead_id s :
  let o := delete_single_lead cfg w campaign_id lead_id s in
  (value o = Ok true <->
   exists resp, value (send_request cfg w (DeleteLead campaign_id lead_id) s) = Ok (Some resp)
                /\ status_code resp = 200) /\
  (value o = Ok true \/ value o = Ok false) /\
  forall l, Logged WARNING (MAlreadyDeleted l) ∉ trace o.
Proof.
  cbv zeta. split; [apply delete_single_lead_true|]. split.
  - destruct (delete_single_lead_total cfg w campaign_id lead_id s) as [[] ->]; auto.
  - intros l Hin. unfold delete_single_lead in Hin. rewrite run_bind in Hin.
    destruct (send_request_from_total cfg w (seq 1 (MAX_RETRIES cfg))
                (DeleteLead campaign_id lead_id) s) as [o Ho].
    destruct (send_request_from_obeys cfg w (seq 1 (MAX_RETRIES cfg))
                (DeleteLead campaign_id lead_id) s) as [_ Hall].
    unfold send_request in Hin. rewrite Ho, status_is_404 in Hin.
    rewrite trace_prepend, elem_of_app in Hin. destruct Hin as [Hin|Hin].
    + rewrite Forall_forall in Hall. exact (Hall _ Hin).
    + destruct (status_is o 200); cbn in Hin.
      * inversion Hin.
      * apply list_elem_of_singleton in Hin. discriminate.
Qed.

(** X5.  On a backup that is not empty, [delete_leads] returns, and the
    success and failure counts it records add up to the number of records;
    the failure count is at least the number of records that lack an
    identifier. *)
Theorem delete_leads_accounts_for_every_record cfg w backup_df s :
  df_empty backup_df = false ->
  let o := delete_leads cfg w backup_df s in
  value o = Ok tt /\
  stat (final o) "leads_deleted_success" + stat (final o) "leads_deleted_failed"
    = df_len backup_df /\
  0 <= stat (final o) "leads_deleted_success" /\
  Z.of_nat (length (filter (fun row => ¬ has_identifiers row) (rows backup_df)))
    <= stat (final o) "leads_deleted_failed".
Proof.
  intros Hne o. subst o.
  destruct (delete_leads_run cfg w backup_df s Hne) as (sc & fc & Hv & Hsum & ->).
  pose proof (delete_loop_failed cfg w _ _ _ _ _ _ _ _ Hv) as Hfailed.
  destruct (delete_loop_counts cfg w (df_len backup_df) (rows backup_df) 0 0 0 s)
    as (sc' & fc' & Hv' & _ & Hsc & _).
  rewrite Hv in Hv'. injection Hv' as <- <-.
  cbn. unfold stat. cbn.
  rewrite lookup_insert_ne by discriminate. rewrite !lookup_insert_eq. cbn.
  repeat split; [exact Hsum|exact Hsc|lia].
Qed.

Lemma delete_leads_accounts_for_every_record_witness :
  value (delete_leads script_config healthy_world one_lead_backup empty_state) = Ok tt.
Proof.
  exact (proj1 (delete_leads_accounts_for_every_record script_config healthy_world
                  one_lead_backup empty_state eq_refl)).
Defined.

(** X6.  Every DELETE request that [delete_leads] issues is for a record of
    the backup whose campaign ID and lead ID are both present; a record that
    lacks one of them reaches the platform in no run. *)
Theorem delete_leads_requests_come_from_backup cfg w backup_df s campaign_id lead_id :
  Http (DeleteLead campaign_id lead_id) ∈ trace (delete_leads cfg w backup_df s) ->
  exists row, row ∈ rows backup_df /\
              row !! "Campaign ID" = Some campaign_id /\ row !! "id" = Some lead_id /\
              campaign_id <> CNaN /\ lead_id <> CNaN.
Proof.
  intros Hin. unfold delete_leads in Hin.
  destruct (df_empty backup_df) eqn:Hne.
  - cbn in Hin. apply list_elem_of_singleton in Hin. discriminate.
  - fold (delete_leads cfg w backup_df s) in Hin.
    assert (Hrun := delete_leads_run cfg w backup_df s Hne).
    destruct Hrun as (sc & fc & _ & _ & Heq).
    unfold delete_leads in Heq. rewrite Hne in Heq. rewrite Heq in Hin.
    rewrite trace_prepend in Hin. cbn [trace app] in Hin.
    rewrite elem_of_cons, elem_of_app, list_elem_of_singleton in Hin.
    destruct Hin as [Hbad|[Hin|Hbad]]; [discriminate| |discriminate].
    destruct (delete_loop_requests cfg w _ _ _ _ _ _ _ _ Hin) as (row & Hrow & Hids & Hc & Hl).
    exists row. repeat split; try assumption.
    + intros ->. unfold has_identifiers in Hids. rewrite Hc in Hids. discriminate.
    + intros ->. unfold has_identifiers in Hids. rewrite Hc, Hl in Hids.
      destruct campaign_id; discriminate.
Qed.

Lemma delete_leads_requests_come_from_backup_witness :
  exists row, row ∈ rows one_lead_backup /\
              row !! "Campaign ID" = Some (CInt 7) /\ row !! "id" = Some (CInt 42) /\
              CInt 7 <> CNaN /\ CInt 42 <> CNaN.
Proof.
  apply (delete_leads_requests_come_from_backup script_config healthy_world
           one_lead_backup empty_state).
  apply list_elem_of_In. vm_compute. tauto.
Defined.
